(** * thedataproxy.com backend: the proxy routes and the API-key service

    A shallow embedding of
      - [backend/app/core/security.py]     ([generate_api_key], [verify_api_key])
      - [backend/app/api/routes/proxy.py]  ([check_proxy_health],
        [verify_api_token], [get_proxy_status], [proxy_fetch],
        [list_user_api_keys])
      - the rest of the two ([create_access_token], [generate_user_api_key])
        and the migration [1204ee420b64] ([upgrade], [downgrade])
    and the properties of the specification that hold (or fail) on it.

    Conventions.  A Python call either returns a value or raises: the type
    [outcome].  Clock readings ([time.time()], [datetime.timestamp()]) are
    rationals, in seconds; an operation on Python floats gives the exact
    result rounded ([PyFloat]).  What the network, the clock and the random
    source answer is an explicit argument of the function that asks. *)

From Stdlib Require Import ZArith QArith Qround Qpower String Ascii List Lia Lqa.
From stdpp Require Import base option list strings gmap countable.

Local Open Scope string_scope.
Local Open Scope Z_scope.

(* ===================================================================== *)
(** ** Python outcomes and exceptions *)
(* ===================================================================== *)

(** The exception classes of [jwt.exceptions]: [security.py] does
    [import jwt], the module of PyJWT, and calls its [jwt.encode] and
    [jwt.decode].  All of them derive from [jwt.exceptions.PyJWTError]. *)
Inductive pyjwt_error :=
| DecodeError
| InvalidAlgorithmError
| InvalidSignatureError
| InvalidIssuedAtError
| ImmatureSignatureError
| ExpiredSignatureError
| InvalidAudienceError
| InvalidSubjectError
| InvalidJTIError.

(** The exceptions that the modelled code can meet.  Every one of them is a
    subclass of [Exception]; [JoseJWTError] is [jose.JWTError] of python-jose,
    the class that [security.py] imports ([from jose import JWTError]) and
    names in its [except] clause. *)
Inductive exn :=
| HTTPException (status_code : Z) (detail : string)
| PyJWTError (e : pyjwt_error)
| JoseJWTError (msg : string)
| HttpxError (msg : string)
| JSONDecodeError (msg : string)
| KeyError (key : string)
| TypeError (msg : string)
| IndexError (msg : string)
| ValidationError (msg : string).

Inductive outcome (A : Type) :=
| Return (a : A)
| Raise (e : exn).
Arguments Return {A} a.
Arguments Raise {A} e.

(** Sequencing: the first exception raised ends the computation.  The
    instances give [outcome] stdpp's monad notation [x ← m; k]. *)
#[global] Instance outcome_ret : MRet outcome := fun A a => Return a.
#[global] Instance outcome_bind : MBind outcome := fun A B k m =>
  match m with
  | Return a => k a
  | Raise e => Raise e
  end.

(** [isinstance(e, jose.JWTError)]: PyJWT's classes and python-jose's share
    no ancestor below [Exception]. *)
Definition isinstance_JWTError (e : exn) : bool :=
  match e with
  | JoseJWTError _ => true
  | _ => false
  end.

(** [str(e)] *)
Definition exn_str (e : exn) : string :=
  match e with
  | HTTPException _ d => d
  | PyJWTError DecodeError => "Not enough segments"
  | PyJWTError InvalidAlgorithmError => "The specified alg value is not allowed"
  | PyJWTError InvalidSignatureError => "Signature verification failed"
  | PyJWTError InvalidIssuedAtError => "Issued At claim (iat) must be an integer."
  | PyJWTError ImmatureSignatureError => "The token is not yet valid"
  | PyJWTError InvalidAudienceError => "Invalid audience"
  | PyJWTError ExpiredSignatureError => "Signature has expired"
  | PyJWTError InvalidSubjectError => "Subject must be a string"
  | PyJWTError InvalidJTIError => "JWT ID must be a string"
  | JoseJWTError m => m
  | HttpxError m => m
  | JSONDecodeError m => m
  | KeyError k => "'" ++ k ++ "'"
  | TypeError m => m
  | IndexError m => m
  | ValidationError m => m
  end.

(** [try: body  except JWTError: handler]: an exception of another class
    passes through. *)
Definition try_except_JWTError {A} (body : outcome A) (handler : outcome A)
  : outcome A :=
  match body with
  | Return a => Return a
  | Raise e => if isinstance_JWTError e then handler else Raise e
  end.

(* ===================================================================== *)
(** ** Python string slices and the key preview *)
(* ===================================================================== *)

(** A slice bound, the way [str.__getitem__] normalises it: a negative bound
    counts from the end, and the result is clipped to [0 .. len]. *)
Definition clamp_index (len i : Z) : Z :=
  let j := if i <? 0 then i + len else i in
  if j <? 0 then 0 else if len <? j then len else j.

(** [s[start:stop]] with either bound optional.  Never raises. *)
Definition py_slice (s : string) (start stop : option Z) : string :=
  let len := Z.of_nat (String.length s) in
  let lo := match start with None => 0 | Some i => clamp_index len i end in
  let hi := match stop with None => len | Some i => clamp_index len i end in
  substring (Z.to_nat lo) (Z.to_nat (hi - lo)) s.

Definition FRONT_PREVIEW_LENGTH : Z := 8.
Definition END_PREVIEW_LENGTH : Z := 8.

(** The f-string of [list_user_api_keys]:
    [f"{token.token[:FRONT_PREVIEW_LENGTH]}...{token.token[-END_PREVIEW_LENGTH:]}"] *)
Definition key_preview (token : string) : outcome string :=
  Return (py_slice token None (Some FRONT_PREVIEW_LENGTH)
          ++ "..."
          ++ py_slice token (Some (- END_PREVIEW_LENGTH)) None).

(* ===================================================================== *)
(** ** Values, timestamps and datetimes *)
(* ===================================================================== *)

(** A JSON value as Python sees it after [json.loads].  Of an array or an
    object nested inside a document the code only ever observes the type and
    the truth value. *)
Inductive pyval :=
| PNone
| PBool (b : bool)
| PNum (q : Q)
| PStr (s : string)
| PComposite (nonempty : bool).

#[global] Instance Q_eq_dec : EqDecision Q.
Proof. solve_decision. Defined.
#[global] Instance pyval_eq_dec : EqDecision pyval.
Proof. solve_decision. Defined.

(** Python's truth value of a JSON value ([not v] is its negation). *)
Definition py_truthy (v : pyval) : bool :=
  match v with
  | PNone => false
  | PBool b => b
  | PNum q => negb (Qnum q =? 0)
  | PStr s => negb (String.eqb s "")
  | PComposite ne => ne
  end.

(** [int(v)] where it is defined without parsing: a float truncates toward
    zero, a bool is 0 or 1. *)
Definition py_int (v : pyval) : option Z :=
  match v with
  | PNum q => Some (Z.quot (Qnum q) (Z.pos (Qden q)))
  | PBool b => Some (if b then 1 else 0)
  | _ => None
  end.

(** A JSON object: a Python [dict] with string keys. *)
Abbreviation pydict := (gmap string pyval).

(** A naive [datetime.datetime] ([datetime.utcnow()], a timestamp column). *)
Record datetime := {
  year : Z; month : Z; day : Z;
  hour : Z; minute : Z; second : Z; microsecond : Z
}.

Definition digit (n : Z) : ascii := ascii_of_nat (48 + Z.to_nat (n mod 10)).

(** [%02d], [%04d] and [%06d] on the ranges a datetime's fields have. *)
Definition pad2 (n : Z) : string :=
  String (digit (n / 10)) (String (digit n) "").
Definition pad4 (n : Z) : string :=
  String (digit (n / 1000)) (String (digit (n / 100)) (pad2 n)).
Definition pad6 (n : Z) : string :=
  String (digit (n / 100000)) (String (digit (n / 10000)) (pad4 n)).

(** [datetime.isoformat()] of a naive datetime: [YYYY-MM-DDTHH:MM:SS], and
    [.ffffff] after it when the microsecond is not zero. *)
Definition isoformat (d : datetime) : string :=
  pad4 (year d) ++ "-" ++ pad2 (month d) ++ "-" ++ pad2 (day d) ++ "T"
  ++ pad2 (hour d) ++ ":" ++ pad2 (minute d) ++ ":" ++ pad2 (second d)
  ++ (if microsecond d =? 0 then "" else "." ++ pad6 (microsecond d)).

(** [timedelta(days=365)] in seconds. *)
Definition DAYS_365 : Q := inject_Z (365 * 86400).

(* ===================================================================== *)
(** ** Python floats *)
(* ===================================================================== *)

(** A Python [float] is an IEEE 754 double, and a finite double is a
    rational.  An operation on floats gives the exact result rounded to a
    double: [fl] is that rounding.  [float_sum] is the builtin [sum] over
    floats, which adds from left to right, with or without a compensation of
    the rounding errors according to the interpreter's version.  All that
    the properties below need of the two is that they keep the sign of what
    is not negative.  (Infinities and NaN, which no clock reading is, are
    left out.) *)
Class PyFloat := {
  fl : Q -> Q;
  float_sum : list Q -> Q;
  fl_nonneg : forall x, (0 <= x)%Q -> (0 <= fl x)%Q;
  float_sum_nonneg :
    forall l, Forall (fun x => (0 <= x)%Q) l -> (0 <= float_sum l)%Q
}.

(** [x - y] and [x / y] on floats. *)
Definition float_sub `{PyFloat} (x y : Q) : Q := fl (x - y)%Q.
Definition float_div `{PyFloat} (x y : Q) : Q := fl (x / y)%Q.

(** The doubles themselves: 53 bits of precision, rounding to nearest with
    ties to even, gradual underflow below [2 ^ -1022]; the exponent is not
    bounded above (no overflow to infinity).  [sum] adds one float at a
    time, without compensation. *)
Module Binary64.

(** [floor (log2 q)] of a positive [q]. *)
Definition ilog2 (q : Q) : Z :=
  let e := Z.log2 (Qnum q) - Z.log2 (Z.pos (Qden q)) in
  if Qle_bool (2 ^ e) q then e else e - 1.

(** The distance between the doubles around a positive [q]. *)
Definition ulp (q : Q) : Q := (2 ^ (Z.max (ilog2 q) (-1022) - 52))%Q.

Definition round_half_even (m : Q) : Z :=
  let f := Qfloor m in
  match (m - inject_Z f ?= 1 # 2)%Q with
  | Lt => f
  | Gt => f + 1
  | Eq => if Z.even f then f else f + 1
  end.

Definition round_pos (q : Q) : Q :=
  Qred (inject_Z (round_half_even (q / ulp q)) * ulp q).

Definition round (q : Q) : Q :=
  match (q ?= 0)%Q with
  | Eq => 0%Q
  | Gt => round_pos q
  | Lt => (- round_pos (- q))%Q
  end.

Definition sum (l : list Q) : Q :=
  fold_left (fun acc x => round (acc + x)) l 0%Q.

Definition double : PyFloat.
Proof.
  assert (Hround : forall x, (0 <= x)%Q -> (0 <= round x)%Q).
  { intros x Hx. unfold round.
    destruct (x ?= 0)%Q eqn:Hc.
    - apply Qle_refl.
    - apply Qlt_alt in Hc. exfalso. apply (Qlt_not_le _ _ Hc Hx).
    - unfold round_pos. rewrite Qred_correct. clear Hc.
      assert (Hu : (0 <= ulp x)%Q) by (apply Qpower_0_le; discriminate).
      apply Qmult_le_0_compat; [|exact Hu].
      assert (Hm : (0 <= x / ulp x)%Q).
      { apply Qmult_le_0_compat; [exact Hx|]. now apply Qinv_le_0_compat. }
      assert (Hf : 0 <= Qfloor (x / ulp x)).
      { change 0 with (Qfloor 0). now apply Qfloor_resp_le. }
      change 0%Q with (inject_Z 0). rewrite <- Zle_Qle.
      unfold round_half_even. cbv zeta.
      destruct (_ ?= _)%Q; [destruct (Z.even _)|..]; lia. }
  assert (Hsum : forall l acc, (0 <= acc)%Q -> Forall (fun x => (0 <= x)%Q) l ->
            (0 <= fold_left (fun acc x => round (acc + x)) l acc)%Q).
  { induction l as [|x l IH]; intros acc Hacc Hl; [exact Hacc|].
    inversion_clear Hl. cbn [fold_left]. apply IH; [|assumption].
    apply Hround. change 0%Q with (0 + 0)%Q. now apply Qplus_le_compat. }
  exact {| fl := round; float_sum := sum; fl_nonneg := Hround;
           float_sum_nonneg := fun l => Hsum l 0%Q (Qle_refl 0) |}.
Defined.

End Binary64.

(* ===================================================================== *)
(** ** Persisted data and process state *)
(* ===================================================================== *)

(** [app.models.User], the fields the routes read.  [id] is the UUID in its
    string form, the form [generate_api_key] embeds. *)
Module User.
Record t := { id : string; is_active : bool; has_subscription : bool }.
End User.

(** [app.models.APIToken], one row per issued key. *)
Module APIToken.
Record t := {
  user_id : string;
  token : string;
  created_at : datetime;
  expires_at : datetime;
  is_active : bool
}.
End APIToken.

(** The database as a session sees it. *)
Record Session := {
  users : list User.t;
  api_tokens : list APIToken.t
}.

(** Modelled from the spec: [app.api.routes.users.read_user_by_id] is not
    among the sources; section 4.6 has it look the user up by [user_id],
    absent when there is none. *)
Definition read_user_by_id (session : Session) (user_id : pyval) : option User.t :=
  List.find (fun u => bool_decide (PStr (User.id u) = user_id)) (users session).

(** What a request handler finds around it: the settings and the database. *)
Record World := {
  SECRET_KEY : string;
  database : Session
}.

(* ===================================================================== *)
(** ** The JWT library (PyJWT) as [security.py] uses it *)
(* ===================================================================== *)

(** The JOSE header of a compact token. *)
Record jose_header := { alg : option string; typ : option string }.

#[global] Instance jose_header_eq_dec : EqDecision jose_header.
Proof. solve_decision. Defined.

(** What the library does below the level of this model: serialising a
    header and a payload into the signing input
    ([base64url(header).base64url(payload)]), computing the MAC, attaching
    the signature segment, and taking a compact token apart again.
    [jws_load] answers [None] for a string that is no well-formed compact
    token (wrong number of segments, bad base64, a header or payload that is
    no JSON object).  And what Python's [int] does with a claim that is no
    number: [int_of_str s] is [int(s)] of a string, [None] being its
    [ValueError]; [int_type_error v] is the text of the [TypeError] that
    [int(v)] raises for [None], a list or a dict. *)
Class PyJWT := {
  jws_signing_input : jose_header -> pydict -> string;
  jws_sign : string -> string -> string -> string;
  jws_attach : string -> string -> string;
  jws_load : string -> option (jose_header * pydict * string * string);
  int_of_str : string -> option Z;
  int_type_error : pyval -> string
}.

(** The library reads back what it wrote. *)
Definition jws_round_trip (lib : PyJWT) : Prop :=
  forall h p sg,
    jws_load (jws_attach (jws_signing_input h p) sg)
    = Some (h, p, jws_signing_input h p, sg).

Section Security.
Context {lib : PyJWT}.

(** [jwt.encode(payload, key, algorithm=algorithm)].  Numeric claims are
    left as they are (only datetimes would be converted). *)
Definition jwt_encode (payload : pydict) (key algorithm : string) : string :=
  let hdr := {| alg := Some algorithm; typ := Some "JWT" |} in
  let signing_input := jws_signing_input hdr payload in
  jws_attach signing_input (jws_sign algorithm key signing_input).

(** [try: int(v)  except ValueError: raise otherwise] of the numeric-date
    checks: a number or a bool converts, a string converts when [int] can
    read it and is the library's error otherwise, and the [TypeError] of
    [int(None)], of a list or of a dict is not caught. *)
Definition claim_int (v : pyval) (otherwise : pyjwt_error) : outcome Z :=
  match v with
  | PNum _ | PBool _ =>
      match py_int v with
      | Some n => Return n
      | None => Raise (PyJWTError otherwise)
      end
  | PStr s =>
      match int_of_str s with
      | Some n => Return n
      | None => Raise (PyJWTError otherwise)
      end
  | PNone | PComposite _ => Raise (TypeError (int_type_error v))
  end.

(** A [sub] or a [jti] claim must be a string. *)
Definition claim_str (v : option pyval) (otherwise : pyjwt_error) : outcome unit :=
  match v with
  | None | Some (PStr _) => Return tt
  | Some _ => Raise (PyJWTError otherwise)
  end.

(** The registered-claim checks of [jwt.decode] with its default options,
    no leeway, no audience, no issuer and no subject: [iat], [nbf], [exp],
    [aud], [sub], [jti], in this order.  A claim that is absent is not
    checked. *)
Definition validate_claims (payload : pydict) (now : Q) : outcome unit :=
  _ ← match payload !! "iat" with
      | Some v =>
          iat ← claim_int v InvalidIssuedAtError;
          if Qle_bool (inject_Z iat) now then Return tt
          else Raise (PyJWTError ImmatureSignatureError)
      | None => Return tt
      end;
  _ ← match payload !! "nbf" with
      | Some v =>
          nbf ← claim_int v DecodeError;
          if Qle_bool (inject_Z nbf) now then Return tt
          else Raise (PyJWTError ImmatureSignatureError)
      | None => Return tt
      end;
  _ ← match payload !! "exp" with
      | Some v =>
          exp ← claim_int v DecodeError;
          if Qle_bool (inject_Z exp) now
          then Raise (PyJWTError ExpiredSignatureError)
          else Return tt
      | None => Return tt
      end;
  _ ← match payload !! "aud" with
      | Some v => if py_truthy v then Raise (PyJWTError InvalidAudienceError)
                  else Return tt
      | None => Return tt
      end;
  _ ← claim_str (payload !! "sub") InvalidSubjectError;
  claim_str (payload !! "jti") InvalidJTIError.

(** [jwt.decode(token, key, algorithms=algorithms)] at the instant [now]:
    take the token apart, check the header's algorithm against the allowed
    ones, recompute and compare the signature, validate the claims.  Every
    failure is an exception of PyJWT's own hierarchy, but for the
    [TypeError] of [claim_int]. *)
Definition jwt_decode (token key : string) (algorithms : list string) (now : Q)
  : outcome pydict :=
  match jws_load token with
  | None => Raise (PyJWTError DecodeError)
  | Some (hdr, payload, signing_input, signature) =>
      match alg hdr with
      | None => Raise (PyJWTError InvalidAlgorithmError)
      | Some a =>
          if negb (bool_decide (a ∈ algorithms))
          then Raise (PyJWTError InvalidAlgorithmError)
          else if negb (String.eqb signature (jws_sign a key signing_input))
          then Raise (PyJWTError InvalidSignatureError)
          else _ ← validate_claims payload now; Return payload
      end
  end.

(* ------------------------------------------------------------------- *)
(** *** [app/core/security.py] *)

Definition ALGORITHM : string := "HS256".

(** [generate_api_key(user_id)].  [t_iat] and [t_exp] are the two readings
    of [datetime.now(timezone.utc)], in evaluation order. *)
Definition generate_api_key (w : World) (t_iat t_exp : Q) (user_id : string)
  : string :=
  let to_encode : pydict :=
    <["user_id" := PStr user_id]>
      (<["iat" := PNum t_iat]>
        (<["exp" := PNum (t_exp + DAYS_365)%Q]> ∅)) in
  jwt_encode to_encode (SECRET_KEY w) ALGORITHM.

(** [verify_api_key(api_key)]; [now] is the instant at which [jwt.decode]
    reads the clock. *)
Definition verify_api_key (w : World) (now : Q) (api_key : string)
  : outcome (option pydict) :=
  try_except_JWTError
    (payload ← jwt_decode api_key (SECRET_KEY w) [ALGORITHM] now;
     Return (Some payload))
    (Return None).

(* ------------------------------------------------------------------- *)
(** *** The Authorization Gate: [verify_api_token] of [proxy.py] *)

(** [not x_api_key] for the optional header: absent, or the empty string. *)
Definition header_missing (x_api_key : option string) : bool :=
  match x_api_key with
  | None => true
  | Some s => String.eqb s ""
  end.

(** [not token_data or "user_id" not in token_data] *)
Definition payload_unusable (token_data : option pydict) : bool :=
  match token_data with
  | None => true
  | Some d => bool_decide (d = ∅) || bool_decide (d !! "user_id" = None)
  end.

(** [verify_api_token(session, x_api_key)], the dependency of the protected
    routes; [None] is the header left out. *)
Definition verify_api_token (w : World) (now : Q) (session : Session)
    (x_api_key : option string) : outcome User.t :=
  if header_missing x_api_key
  then Raise (HTTPException 401 "API key required")
  else
    token_data ← verify_api_key w now (default "" x_api_key);
    if payload_unusable token_data
    then Raise (HTTPException 401 "Invalid API key")
    else
      let user :=
        read_user_by_id session
          (default PNone (default ∅ token_data !! "user_id")) in
      match user with
      | None => Raise (HTTPException 401 "Invalid or inactive user")
      | Some u =>
          if negb (User.is_active u)
          then Raise (HTTPException 401 "Invalid or inactive user")
          else if negb (User.has_subscription u)
          then Raise (HTTPException 403 "Active subscription required")
          else Return u
      end.

End Security.

(* ===================================================================== *)
(** ** The network, and computations that call it *)
(* ===================================================================== *)

(** What a handler does to the outside world, in order. *)
Inductive event :=
| HttpGet (url : string)
| HttpPost (url : string) (json : pydict)
| LogError (msg : string).

(** A computation together with the calls it made before it returned or
    raised. *)
Record io (A : Type) := IO { calls : list event; result : outcome A }.
Arguments IO {A} calls result.
Arguments calls {A} _.
Arguments result {A} _.

#[global] Instance io_ret : MRet io := fun A a => IO [] (Return a).
#[global] Instance io_bind : MBind io := fun A B k m =>
  match result m with
  | Return a => IO (calls m ++ calls (k a)) (result (k a))
  | Raise e => IO (calls m) (Raise e)
  end.

(** A step that calls nothing. *)
Definition lift {A} (o : outcome A) : io A := IO [] o.

Definition logger_error (msg : string) : io unit := IO [LogError msg] (Return tt).

(** [try: body  except Exception as e: handler(e)] for a computation with
    calls: what the body did before it raised stays done. *)
Definition io_try_except_Exception {A} (body : io A) (handler : exn -> io A) : io A :=
  match result body with
  | Return a => body
  | Raise e => IO (calls body ++ calls (handler e)) (result (handler e))
  end.

(** [await asyncio.gather] over the tasks: every task runs; the results
    come back in the order of the tasks, or the first exception is raised. *)
Definition gather {A} (tasks : list (io A)) : io (list A) :=
  IO (concat (calls <$> tasks)) (mapM result tasks).

(** The body of an HTTP response: [response.json()] gives an object, or
    some other document, or fails to decode ([None]). *)
Inductive json_doc :=
| JObject (d : pydict)
| JOther (v : pyval).

(** A response, as far as the code reads it.  The libraries word their own
    exceptions: [error_text] is [str(e)] of the exception that the reading of
    this response raises when it is httpx's ([raise_for_status]), the JSON
    decoder's, Python's [TypeError] of a subscript or pydantic's; a handler
    meets at most one of them per response. *)
Record Response := {
  status_code : Z;
  body : option json_doc;
  error_text : string
}.

(** One [httpx] request either gets a response or raises (a timeout, a
    refused connection, a protocol error: some subclass of [Exception]). *)
Inductive net_reply :=
| Replied (r : Response)
| Failed (e : exn).

Definition reply_outcome (n : net_reply) : outcome Response :=
  match n with
  | Replied r => Return r
  | Failed e => Raise e
  end.

(** [response.raise_for_status()]: anything but 2xx raises
    [HTTPStatusError]. *)
Definition raise_for_status (r : Response) : outcome unit :=
  if (200 <=? status_code r) && (status_code r <=? 299) then Return tt
  else Raise (HttpxError (error_text r)).

(** [response.json()] *)
Definition response_json (r : Response) : outcome json_doc :=
  match body r with
  | Some d => Return d
  | None => Raise (JSONDecodeError (error_text r))
  end.

(** [data[key]]: a [KeyError] for a key that an object lacks, a [TypeError]
    worded [msg] for a document that is no object. *)
Definition subscript (data : json_doc) (key : string) (msg : string) : outcome pyval :=
  match data with
  | JObject d =>
      match d !! key with
      | Some v => Return v
      | None => Raise (KeyError key)
      end
  | JOther _ => Raise (TypeError msg)
  end.

(** A pydantic [str] field takes a string and nothing else; [msg] words the
    [ValidationError]. *)
Definition validate_str (v : pyval) (msg : string) : outcome string :=
  match v with
  | PStr s => Return s
  | _ => Raise (ValidationError msg)
  end.

(** What one health probe meets: the answer to its GET, the two readings of
    [time.time()] (at the start, and when the probe is over) and the reading
    of [datetime.utcnow()]. *)
Record probe_run := {
  pr_reply : string -> net_reply;
  pr_start : Q;
  pr_end : Q;
  pr_utcnow : datetime
}.

(** What one request meets: a run for each of its concurrent probes (by
    position), the answer to the forwarded POST, the draw of the random
    source and the clock. *)
Record Environment := {
  probe : nat -> probe_run;
  post_reply : string -> pydict -> net_reply;
  random_draw : nat;
  utcnow : datetime
}.

Definition http_get (run : probe_run) (url : string) : io Response :=
  IO [HttpGet url] (reply_outcome (pr_reply run url)).

Definition http_post (env : Environment) (url : string) (json : pydict) : io Response :=
  IO [HttpPost url json] (reply_outcome (post_reply env url json)).

(** [random.choice(seq)] with the draw [r]: [IndexError] on an empty
    sequence. *)
Definition random_choice {A} (r : nat) (seq : list A) : outcome A :=
  match seq !! (r mod length seq)%nat with
  | Some x => Return x
  | None => Raise (IndexError "Cannot choose from an empty sequence")
  end.

(* ===================================================================== *)
(** ** [app/api/routes/proxy.py] *)
(* ===================================================================== *)

(** The registry, in the order of the source. *)
Definition REGION_ENDPOINTS : list (string * list string) := [
  ("northamerica-northeast", [
     "https://northamerica-northeast1-proxy2-455013.cloudfunctions.net/main";
     "https://northamerica-northeast2-proxy2-455013.cloudfunctions.net/main" ]);
  ("southamerica", [
     "https://southamerica-west1-proxy1-454912.cloudfunctions.net/main";
     "https://southamerica-east1-proxy3-455013.cloudfunctions.net/main";
     "https://southamerica-west1-proxy3-455013.cloudfunctions.net/main" ]);
  ("us-central", [
     "https://us-central1-proxy1-454912.cloudfunctions.net/main";
     "https://us-central1-proxy2-455013.cloudfunctions.net/main";
     "https://us-south1-proxy3-455013.cloudfunctions.net/main" ]);
  ("us-east", [
     "https://us-east1-proxy1-454912.cloudfunctions.net/main";
     "https://us-east4-proxy1-454912.cloudfunctions.net/main";
     "https://us-east5-proxy2-455013.cloudfunctions.net/main" ]);
  ("asia", [
     "https://asia-east1-proxy6-455014.cloudfunctions.net/main";
     "https://asia-northeast2-proxy6-455014.cloudfunctions.net/main" ]);
  ("us-west", [
     "https://us-west1-proxy1-454912.cloudfunctions.net/main";
     "https://us-west3-proxy1-454912.cloudfunctions.net/main";
     "https://us-west4-proxy1-454912.cloudfunctions.net/main";
     "https://us-west2-proxy2-455013.cloudfunctions.net/main" ]);
  ("europe", [
     "https://europe-north1-proxy4-455014.cloudfunctions.net/main";
     "https://europe-southwest1-proxy4-455014.cloudfunctions.net/main";
     "https://europe-west1-proxy4-455014.cloudfunctions.net/main";
     "https://europe-west4-proxy4-455014.cloudfunctions.net/main";
     "https://europe-west6-proxy4-455014.cloudfunctions.net/main";
     "https://europe-west8-proxy4-455014.cloudfunctions.net/main";
     "https://europe-west12-proxy5-455014.cloudfunctions.net/main";
     "https://europe-west2-proxy5-455014.cloudfunctions.net/main";
     "https://europe-west3-proxy5-455014.cloudfunctions.net/main";
     "https://europe-west6-proxy5-455014.cloudfunctions.net/main";
     "https://europe-west9-proxy5-455014.cloudfunctions.net/main";
     "https://europe-west10-proxy6-455014.cloudfunctions.net/main" ]);
  ("middle-east", [
     "https://me-central1-proxy6-455014.cloudfunctions.net/main" ]);
  ("australia", [
     "https://australia-southeast1-proxy3-455013.cloudfunctions.net/main";
     "https://australia-southeast2-proxy3-455013.cloudfunctions.net/main" ])
].

(** [REGION_ENDPOINTS.get(region)]: [None] stands for [region not in
    REGION_ENDPOINTS]. *)
Fixpoint dict_get {V} (d : list (string * V)) (key : string) : option V :=
  match d with
  | [] => None
  | (k, v) :: rest => if String.eqb k key then Some v else dict_get rest key
  end.

(** [repr] of a list of strings, as an f-string interpolates it. *)
Fixpoint repr_items (l : list string) : string :=
  match l with
  | [] => ""
  | [x] => "'" ++ x ++ "'"
  | x :: rest => "'" ++ x ++ "', " ++ repr_items rest
  end.
Definition repr_list (l : list string) : string := "[" ++ repr_items l ++ "]".

Definition invalid_region : exn :=
  HTTPException 400
    ("Invalid region. Available regions: " ++ repr_list (fst <$> REGION_ENDPOINTS)).

(** The dict a health check returns. *)
Module Health.
Record t := {
  region : string;
  is_healthy : bool;
  response_time : Q;
  last_checked : datetime
}.
End Health.

Module ProxyStatus.
Record t := {
  region : string;
  is_healthy : bool;
  avg_response_time : Q;
  healthy_endpoints : Z;
  total_endpoints : Z;
  last_checked : datetime
}.
End ProxyStatus.

Record ProxyStatusResponse := { statuses : list ProxyStatus.t }.

Record ProxyRequest := { url : string }.

Module ProxyResponse.
Record t := {
  result : string;
  public_ip : string;
  device_id : string;
  region_used : string
}.
End ProxyResponse.

Module APIKeyResponse.
Record t := {
  key_preview : string;
  created_at : string;
  expires_at : string;
  is_active : bool
}.
End APIKeyResponse.

Section Handlers.
Context {F : PyFloat}.

(** [check_proxy_health(endpoint, region)] *)
Definition check_proxy_health (run : probe_run) (endpoint region : string)
  : io Health.t :=
  let start_time := pr_start run in
  io_try_except_Exception
    (response ← http_get run (endpoint ++ "/health");
     _ ← lift (raise_for_status response);
     let response_time := float_sub (pr_end run) start_time in
     mret {| Health.region := region;
             Health.is_healthy := true;
             Health.response_time := response_time;
             Health.last_checked := pr_utcnow run |})
    (fun e =>
     _ ← logger_error ("Health check failed for " ++ endpoint ++ " in " ++ region
                        ++ ": " ++ exn_str e);
     mret {| Health.region := region;
             Health.is_healthy := false;
             Health.response_time := float_sub (pr_end run) start_time;
             Health.last_checked := pr_utcnow run |}).

(** [[check_proxy_health(endpoint, region) for endpoint in endpoints]] *)
Definition status_tasks (env : Environment) (endpoints : list string) (region : string)
  : list (io Health.t) :=
  imap (fun i endpoint => check_proxy_health (probe env i) endpoint region) endpoints.

(** [sum(r["response_time"] for r in results)] *)
Definition sum_response_time (results : list Health.t) : Q :=
  float_sum (Health.response_time <$> results).

(** [get_proxy_status(region, user, session)] *)
Definition get_proxy_status (env : Environment) (region : string) (user : User.t)
    (session : Session) : io ProxyStatusResponse :=
  match dict_get REGION_ENDPOINTS region with
  | None => lift (Raise invalid_region)
  | Some endpoints =>
      results ← gather (status_tasks env endpoints region);
      let healthy_count := Z.of_nat (length (filter (fun r => Health.is_healthy r = true) results)) in
      let total_count := Z.of_nat (length endpoints) in
      let avg_response_time :=
        if 0 <? total_count
        then float_div (sum_response_time results) (inject_Z total_count)
        else 0%Q in
      let status := {|
        ProxyStatus.region := region;
        ProxyStatus.is_healthy := 0 <? healthy_count;
        ProxyStatus.avg_response_time := avg_response_time;
        ProxyStatus.healthy_endpoints := healthy_count;
        ProxyStatus.total_endpoints := total_count;
        ProxyStatus.last_checked :=
          match results with
          | r :: _ => Health.last_checked r
          | [] => utcnow env
          end |} in
      mret {| statuses := [status] |}
  end.

(** [[endpoints[i] for i, result in enumerate(results) if result["is_healthy"]]],
    from position [i] on. *)
Fixpoint healthy_from (endpoints : list string) (i : nat) (results : list Health.t)
  : outcome (list string) :=
  match results with
  | [] => Return []
  | r :: rest =>
      if Health.is_healthy r
      then match endpoints !! i with
           | Some e => tl ← healthy_from endpoints (S i) rest; Return (e :: tl)
           | None => Raise (IndexError "list index out of range")
           end
      else healthy_from endpoints (S i) rest
  end.

(** Lines 207 to 216 of [proxy_fetch]: probe the region, keep the healthy
    endpoints, refuse with 503 when there is none, else draw one. *)
Definition select_endpoint (env : Environment) (endpoints : list string)
    (region : string) : io string :=
  results ← gather (status_tasks env endpoints region);
  healthy_endpoints ← lift (healthy_from endpoints 0 results);
  match healthy_endpoints with
  | [] => lift (Raise (HTTPException 503
                  ("No healthy proxy endpoints available in " ++ region)))
  | _ => lift (random_choice (random_draw env) healthy_endpoints)
  end.

(** Lines 218 to 235 of [proxy_fetch]: the forwarded call and the mapping of
    its answer. *)
Definition forward (env : Environment) (selected_endpoint region : string)
    (request : ProxyRequest) : io ProxyResponse.t :=
  io_try_except_Exception
    (response ← http_post env (selected_endpoint ++ "/fetch") {[ "url" := PStr (url request) ]};
     _ ← lift (raise_for_status response);
     data ← lift (response_json response);
     r ← lift (subscript data "result" (error_text response));
     ip ← lift (subscript data "public_ip" (error_text response));
     dev ← lift (subscript data "device_id" (error_text response));
     r ← lift (validate_str r (error_text response));
     ip ← lift (validate_str ip (error_text response));
     dev ← lift (validate_str dev (error_text response));
     mret {| ProxyResponse.result := r;
             ProxyResponse.public_ip := ip;
             ProxyResponse.device_id := dev;
             ProxyResponse.region_used := region |})
    (fun e =>
     _ ← logger_error ("Proxy fetch failed in " ++ region ++ ": " ++ exn_str e);
     lift (Raise (HTTPException 500
             ("Proxy request failed in " ++ region ++ ": " ++ exn_str e)))).

(** [proxy_fetch(session, region, request, user, background_tasks)] *)
Definition proxy_fetch (env : Environment) (session : Session) (region : string)
    (request : ProxyRequest) (user : User.t) : io ProxyResponse.t :=
  match dict_get REGION_ENDPOINTS region with
  | None => lift (Raise invalid_region)
  | Some endpoints =>
      selected_endpoint ← select_endpoint env endpoints region;
      forward env selected_endpoint region request
  end.

End Handlers.

(** [list_user_api_keys(session, current_user)] *)
Definition list_user_api_keys (session : Session) (current_user : User.t)
  : outcome (list APIKeyResponse.t) :=
  if negb (User.has_subscription current_user)
  then Raise (HTTPException 403 "Active subscription required")
  else
    let api_tokens :=
      filter (fun t => APIToken.user_id t = User.id current_user
                       ∧ APIToken.is_active t = true)
             (api_tokens session) in
    mapM (fun token =>
            preview ← key_preview (APIToken.token token);
            Return {| APIKeyResponse.key_preview := preview;
                      APIKeyResponse.created_at := isoformat (APIToken.created_at token);
                      APIKeyResponse.expires_at := isoformat (APIToken.expires_at token);
                      APIKeyResponse.is_active := APIToken.is_active token |})
         api_tokens.

(* ===================================================================== *)
(** ** The rest of [security.py] and of [proxy.py] *)
(* ===================================================================== *)

(** The addresses a list of calls read with GET, in order. *)
Definition requested (evs : list event) : list string :=
  omap (fun ev => match ev with HttpGet u => Some u | _ => None end) evs.

(** The messages a list of calls logged, in order. *)
Definition logged (evs : list event) : list string :=
  omap (fun ev => match ev with LogError m => Some m | _ => None end) evs.

(** Days since 1970-01-01 of a date of the proleptic Gregorian calendar,
    and back: what [datetime] does with a [timedelta] of whole days. *)
Definition days_from_civil (y m d : Z) : Z :=
  let y' := if m <=? 2 then y - 1 else y in
  let era := y' / 400 in
  let yoe := y' - era * 400 in
  let doy := (153 * (if 2 <? m then m - 3 else m + 9) + 2) / 5 + d - 1 in
  let doe := yoe * 365 + yoe / 4 - yoe / 100 + doy in
  era * 146097 + doe - 719468.

Definition civil_from_days (z : Z) : Z * Z * Z :=
  let z' := z + 719468 in
  let era := z' / 146097 in
  let doe := z' - era * 146097 in
  let yoe := (doe - doe / 1460 + doe / 36524 - doe / 146096) / 365 in
  let doy := doe - (365 * yoe + yoe / 4 - yoe / 100) in
  let mp := (5 * doy + 2) / 153 in
  let d := doy - (153 * mp + 2) / 5 + 1 in
  let m := if mp <? 10 then mp + 3 else mp - 9 in
  ((if m <=? 2 then yoe + era * 400 + 1 else yoe + era * 400), m, d).

(** [d + timedelta(days=n)]: the time of day stays; [None] is the
    [OverflowError] of a result outside the years 1 to 9999. *)
Definition datetime_add_days (d : datetime) (n : Z) : option datetime :=
  let '(y, m, dd) := civil_from_days (days_from_civil (year d) (month d) (day d) + n) in
  if (1 <=? y) && (y <=? 9999)
  then Some {| year := y; month := m; day := dd;
               hour := hour d; minute := minute d; second := second d;
               microsecond := microsecond d |}
  else None.

(** The four clock readings of one key issuance, in evaluation order: the
    two [datetime.now(timezone.utc)] of [generate_api_key], then the two
    [datetime.utcnow()] of the row. *)
Record issue_clock := {
  ic_iat : Q;
  ic_exp : Q;
  ic_created : datetime;
  ic_expires_from : datetime
}.

(** How [generate_user_api_key] ends: with the key and the session it
    committed to, with an exception before anything was stored, or with the
    [OverflowError] of the date addition (also before anything was stored). *)
Inductive issue_result :=
| Issued (api_key : string) (session' : Session)
| Refused (e : exn)
| DateOverflow.

Section Routes.
Context {lib : PyJWT} {F : PyFloat}.

(** [create_access_token(subject, expires_delta)]: [t_now] is the reading of
    [datetime.now(timezone.utc)], [subject] is [str(subject)] and
    [expires_delta] is in seconds.  [jwt.encode] turns the datetime under
    [exp] into whole seconds since the epoch. *)
Definition create_access_token (w : World) (t_now : Q) (subject : string)
    (expires_delta : Q) : string :=
  let expire := (t_now + expires_delta)%Q in
  let to_encode : pydict :=
    <["exp" := PNum (inject_Z (Qfloor expire))]> (<["sub" := PStr subject]> ∅) in
  jwt_encode to_encode (SECRET_KEY w) ALGORITHM.

(** [generate_user_api_key(session, current_user)]: the row is added to the
    session and committed. *)
Definition generate_user_api_key (w : World) (clk : issue_clock) (session : Session)
    (current_user : User.t) : issue_result :=
  if negb (User.has_subscription current_user)
  then Refused (HTTPException 403 "Active subscription required")
  else
    let api_key := generate_api_key w (ic_iat clk) (ic_exp clk) (User.id current_user) in
    match datetime_add_days (ic_expires_from clk) 365 with
    | None => DateOverflow
    | Some expires =>
        let token := {| APIToken.user_id := User.id current_user;
                        APIToken.token := api_key;
                        APIToken.created_at := ic_created clk;
                        APIToken.expires_at := expires;
                        APIToken.is_active := true |} in
        Issued api_key {| users := users session;
                          api_tokens := (api_tokens session ++ [token])%list |}
    end.

(** [GET /status] and [POST /fetch] as FastAPI runs them: the dependency
    [verify_api_token] first, the handler only with the user it returned. *)
Definition status_route (w : World) (now : Q) (session : Session)
    (x_api_key : option string) (env : Environment) (region : string)
  : io ProxyStatusResponse :=
  user ← lift (verify_api_token w now session x_api_key);
  get_proxy_status env region user session.

Definition fetch_route (w : World) (now : Q) (session : Session)
    (x_api_key : option string) (env : Environment) (region : string)
    (request : ProxyRequest) : io ProxyResponse.t :=
  user ← lift (verify_api_token w now session x_api_key);
  proxy_fetch env session region request user.

End Routes.

(* ===================================================================== *)
(** ** The migration [1204ee420b64_add_subscription_fields_to_user.py] *)
(* ===================================================================== *)

(** The database schema as the migration's operations see it.  A cell holds
    the text of an SQL literal, or NULL ([None]); a row maps column names to
    cells. *)
Module Alembic.

Inductive sqltype :=
| AutoString (length : Z)
| Float
| Uuid
| Boolean.

Record column := {
  col_name : string;
  col_type : sqltype;
  nullable : bool;
  server_default : option string
}.

Record table := {
  columns : list column;
  primary_key : list string;
  rows : list (gmap string (option string))
}.

Record index := {
  ix_table : string;
  ix_columns : list string;
  ix_unique : bool
}.

Record schema := {
  tables : gmap string table;
  indexes : gmap string index
}.

#[global] Instance sqltype_eq_dec : EqDecision sqltype.
Proof. solve_decision. Defined.
#[global] Instance column_eq_dec : EqDecision column.
Proof. solve_decision. Defined.
#[global] Instance table_eq_dec : EqDecision table.
Proof. solve_decision. Defined.
#[global] Instance index_eq_dec : EqDecision index.
Proof. solve_decision. Defined.
#[global] Instance schema_eq_dec : EqDecision schema.
Proof. solve_decision. Defined.

Definition column_names (t : table) : list string := col_name <$> columns t.

(** The key of a row under an index, when none of its cells is NULL (rows
    with a NULL never collide). *)
Definition index_key (cols : list string) (r : gmap string (option string))
  : option (list string) :=
  mapM (fun c => mjoin (r !! c)) cols.

(** The name is free: tables and indexes are relations of the database
    alike, and no two relations of a schema have the same name. *)
Definition relation_free (name : string) (s : schema) : bool :=
  bool_decide (tables s !! name = None) && bool_decide (indexes s !! name = None).

(** [op.create_table(name, columns..., sa.PrimaryKeyConstraint(pk...))]:
    the database refuses a name that is taken and a key column that is not
    a column of the table.  [None] is the database's error. *)
Definition create_table (name : string) (cols : list column) (pk : list string)
    (s : schema) : option schema :=
  if negb (relation_free name s) then None
  else if bool_decide (Forall (fun k => k ∈ (col_name <$> cols)) pk)
  then Some {| tables := <[name := {| columns := cols; primary_key := pk; rows := [] |}]>
                           (tables s);
               indexes := indexes s |}
  else None.

(** [op.create_index(name, table_name, columns, unique=unique)]: refused
    when the name is taken, the table or a column is missing, or the index
    is unique and two rows already collide. *)
Definition create_index (name table_name : string) (cols : list string) (unique : bool)
    (s : schema) : option schema :=
  if negb (relation_free name s) then None
  else match tables s !! table_name with
       | Some t =>
           if bool_decide (Forall (fun c => c ∈ column_names t) cols)
              && (negb unique || bool_decide (NoDup (omap (index_key cols) (rows t))))
           then Some {| tables := tables s;
                        indexes := <[name := {| ix_table := table_name; ix_columns := cols;
                                                ix_unique := unique |}]> (indexes s) |}
           else None
       | None => None
       end.

(** [op.add_column(table_name, column)]: refused when the table is missing,
    the column exists, or the column is NOT NULL without a default and the
    table has rows.  Every existing row gets the default. *)
Definition add_column (table_name : string) (col : column) (s : schema) : option schema :=
  match tables s !! table_name with
  | None => None
  | Some t =>
      if bool_decide (col_name col ∈ column_names t) then None
      else if negb (nullable col) && bool_decide (server_default col = None)
              && negb (bool_decide (rows t = []))
      then None
      else Some {| tables :=
                     <[table_name :=
                         {| columns := (columns t ++ [col])%list;
                            primary_key := primary_key t;
                            rows := (fun r => <[col_name col := server_default col]> r)
                                    <$> rows t |}]> (tables s);
                   indexes := indexes s |}
  end.

(** [op.drop_column(table_name, column_name)]: refused when the table or
    the column is missing.  The indexes of the table over the column, and a
    primary key over it, go with it. *)
Definition drop_column (table_name column_name : string) (s : schema) : option schema :=
  match tables s !! table_name with
  | None => None
  | Some t =>
      if negb (bool_decide (column_name ∈ column_names t)) then None
      else Some {| tables :=
                     <[table_name :=
                         {| columns := filter (fun c => col_name c ≠ column_name) (columns t);
                            primary_key := if bool_decide (column_name ∈ primary_key t)
                                           then [] else primary_key t;
                            rows := delete column_name <$> rows t |}]> (tables s);
                   indexes :=
                     filter (fun '(_, ix) => ¬ (ix_table ix = table_name
                                                ∧ column_name ∈ ix_columns ix))
                            (indexes s) |}
  end.

(** [op.drop_index(name, table_name=...)]: refused when there is no such
    index. *)
Definition drop_index (name : string) (s : schema) : option schema :=
  match indexes s !! name with
  | None => None
  | Some _ => Some {| tables := tables s; indexes := delete name (indexes s) |}
  end.

(** [op.drop_table(name)]: refused when there is no such table.  The
    indexes of the table go with it. *)
Definition drop_table (name : string) (s : schema) : option schema :=
  match tables s !! name with
  | None => None
  | Some _ => Some {| tables := delete name (tables s);
                      indexes := filter (fun '(_, ix) => ix_table ix ≠ name) (indexes s) |}
  end.

Definition useragent_columns : list column := [
  {| col_name := "user_agent"; col_type := AutoString 512; nullable := false;
     server_default := None |};
  {| col_name := "device"; col_type := AutoString 50; nullable := false;
     server_default := None |};
  {| col_name := "browser"; col_type := AutoString 100; nullable := true;
     server_default := None |};
  {| col_name := "os"; col_type := AutoString 100; nullable := true;
     server_default := None |};
  {| col_name := "percentage"; col_type := Float; nullable := true;
     server_default := None |};
  {| col_name := "id"; col_type := Uuid; nullable := false; server_default := None |}
].

(** [sa.Column(name, sa.Boolean(), nullable=False, server_default='false')] *)
Definition flag_column (name : string) : column :=
  {| col_name := name; col_type := Boolean; nullable := false;
     server_default := Some "false" |}.

(** [upgrade()] *)
Definition upgrade (s : schema) : option schema :=
  s ← create_table "useragent" useragent_columns ["id"] s;
  s ← create_index "ix_useragent_user_agent" "useragent" ["user_agent"] true s;
  s ← add_column "user" (flag_column "has_subscription") s;
  s ← add_column "user" (flag_column "is_trial") s;
  add_column "user" (flag_column "is_deactivated") s.

(** [downgrade()] *)
Definition downgrade (s : schema) : option schema :=
  s ← drop_column "user" "is_deactivated" s;
  s ← drop_column "user" "is_trial" s;
  s ← drop_column "user" "has_subscription" s;
  s ← drop_index "ix_useragent_user_agent" s;
  drop_table "useragent" s.

End Alembic.

(* ===================================================================== *)
(** ** A reference instance of the library interface *)
(* ===================================================================== *)

(** A small codec with the shape of a compact token, [segments.signature],
    to run the definitions on: the segments are the binary numeral of the
    header and payload's code, the MAC is symbolic. *)
Module Reference.

#[global] Instance Q_countable : Countable Q.
Proof.
  refine (inj_countable' (fun q => (Qnum q, Qden q)) (fun '(n, d) => Qmake n d) _).
  by intros [].
Defined.

#[global] Instance pyval_countable : Countable pyval.
Proof.
  refine (inj_countable'
    (fun v => match v with
              | PNone => inl (inl tt)
              | PBool b => inl (inr b)
              | PNum q => inr (inl q)
              | PStr s => inr (inr (inl s))
              | PComposite b => inr (inr (inr b))
              end)
    (fun c => match c with
              | inl (inl _) => PNone
              | inl (inr b) => PBool b
              | inr (inl q) => PNum q
              | inr (inr (inl s)) => PStr s
              | inr (inr (inr b)) => PComposite b
              end) _).
  by intros [].
Defined.

#[global] Instance jose_header_countable : Countable jose_header.
Proof.
  refine (inj_countable' (fun h => (alg h, typ h))
                         (fun '(a, t) => {| alg := a; typ := t |}) _).
  by intros [].
Defined.

Fixpoint bits_of_pos (p : positive) : string :=
  match p with
  | xH => ""
  | xO p => String "0" (bits_of_pos p)
  | xI p => String "1" (bits_of_pos p)
  end.

Fixpoint pos_of_bits (s : string) : option positive :=
  match s with
  | EmptyString => Some xH
  | String c rest =>
      p ← pos_of_bits rest;
      if Ascii.eqb c "0" then Some (xO p)
      else if Ascii.eqb c "1" then Some (xI p)
      else None
  end.

(** Cut a string at its first dot. *)
Fixpoint split_dot (s : string) : option (string * string) :=
  match s with
  | EmptyString => None
  | String c rest =>
      if Ascii.eqb c "." then Some (EmptyString, rest)
      else '(a, b) ← split_dot rest; Some (String c a, b)
  end.

Definition mac (algorithm key msg : string) : string :=
  algorithm ++ "(" ++ key ++ "," ++ msg ++ ")".

Definition load (tok : string) : option (jose_header * pydict * string * string) :=
  '(segments, signature) ← split_dot tok;
  p ← pos_of_bits segments;
  '(h, payload) ← decode p;
  Some (h, payload, segments, signature).

(** The value of a string of decimal digits, after [acc]. *)
Fixpoint digits_value (s : string) (acc : Z) : option Z :=
  match s with
  | EmptyString => Some acc
  | String c rest =>
      let d := Z.of_nat (nat_of_ascii c) - 48 in
      if (0 <=? d) && (d <=? 9) then digits_value rest (10 * acc + d) else None
  end.

(** A decimal numeral with an optional sign. *)
Definition int_of_decimal (s : string) : option Z :=
  match s with
  | EmptyString => None
  | String c rest =>
      if Ascii.eqb c "-" then
        if String.eqb rest "" then None else Z.opp <$> digits_value rest 0
      else if Ascii.eqb c "+" then
        if String.eqb rest "" then None else digits_value rest 0
      else digits_value s 0
  end.

Definition lib : PyJWT := {|
  jws_signing_input h p := bits_of_pos (encode (h, p));
  jws_sign := mac;
  jws_attach segments signature := segments ++ "." ++ signature;
  jws_load := load;
  int_of_str := int_of_decimal;
  int_type_error _ :=
    "int() argument must be a string, a bytes-like object or a real number"
|}.

End Reference.

(* ===================================================================== *)
(** ** Notions the statements use *)
(* ===================================================================== *)

(** The probe of [endpoint] got a success status. *)
Definition probe_ok (run : probe_run) (endpoint : string) : bool :=
  match pr_reply run (endpoint ++ "/health") with
  | Replied r => (200 <=? status_code r) && (status_code r <=? 299)
  | Failed _ => false
  end.

(** The endpoints whose verdict, at the same position, is healthy. *)
Definition healthy_subset (endpoints : list string) (results : list Health.t)
  : list string :=
  fst <$> filter (fun p => Health.is_healthy (snd p) = true) (zip endpoints results).

(** The number of verdicts that say [b]. *)
Definition count_verdicts (b : bool) (results : list Health.t) : Z :=
  Z.of_nat (length (filter (fun r => Health.is_healthy r = b) results)).

(** The addresses a list of calls posted to, in order. *)
Definition posted (evs : list event) : list string :=
  omap (fun ev => match ev with HttpPost u _ => Some u | _ => None end) evs.

Definition is_digit (c : ascii) : bool :=
  (48 <=? nat_of_ascii c)%nat && (nat_of_ascii c <=? 57)%nat.

(** [s] has the shape of [pattern], in which [d] stands for a digit and any
    other character for itself. *)
Fixpoint shape_matches (pattern s : string) : bool :=
  match pattern, s with
  | EmptyString, EmptyString => true
  | String p ps, String c cs =>
      (if Ascii.eqb p "d" then is_digit c else Ascii.eqb p c) && shape_matches ps cs
  | _, _ => false
  end.

(** The extended ISO-8601 form of a date and a time of day, with or without
    a fraction of a second. *)
Definition is_iso8601 (s : string) : bool :=
  shape_matches "dddd-dd-ddTdd:dd:dd" s || shape_matches "dddd-dd-ddTdd:dd:dd.dddddd" s.

(** The arithmetic mean of a list of rationals. *)
Definition arithmetic_mean (l : list Q) : Q :=
  (fold_right Qplus 0 l / inject_Z (Z.of_nat (length l)))%Q.

(** The mean as Python computes it on floats: [sum(l) / len(l)]. *)
Definition float_mean `{PyFloat} (l : list Q) : Q :=
  float_div (float_sum l) (inject_Z (Z.of_nat (length l))).

(** The arithmetic does not round: every result is the exact one. *)
Definition exact_arithmetic (F : PyFloat) : Prop :=
  (forall x, (fl x == x)%Q)
  /\ (forall l, (float_sum l == fold_right Qplus 0 l)%Q).

(** The MAC tells the two keys apart: no message has the same signature
    under both. *)
Definition mac_separates (lib : PyJWT) (key1 key2 : string) : Prop :=
  forall a m, jws_sign a key1 m <> jws_sign a key2 m.

(** The claims [generate_api_key] signs. *)
Definition issued_claims (t_iat t_exp : Q) (user_id : string) : pydict :=
  <["user_id" := PStr user_id]>
    (<["iat" := PNum t_iat]> (<["exp" := PNum (t_exp + DAYS_365)%Q]> ∅)).

(** The entry [list_user_api_keys] builds for a stored key. *)
Definition api_key_entry (token : APIToken.t) : APIKeyResponse.t :=
  {| APIKeyResponse.key_preview :=
       py_slice (APIToken.token token) None (Some FRONT_PREVIEW_LENGTH)
       ++ "..."
       ++ py_slice (APIToken.token token) (Some (- END_PREVIEW_LENGTH)) None;
     APIKeyResponse.created_at := isoformat (APIToken.created_at token);
     APIKeyResponse.expires_at := isoformat (APIToken.expires_at token);
     APIKeyResponse.is_active := APIToken.is_active token |}.

(** The environment with another draw of the random source. *)
Definition with_draw (env : Environment) (r : nat) : Environment :=
  {| probe := probe env; post_reply := post_reply env; random_draw := r;
     utcnow := utcnow env |}.

(** What the answer to the forwarded POST gives: the three strings of a
    well-formed answer, or the exception that the reading of it raises. *)
Definition upstream_answer (n : net_reply) : outcome (string * string * string) :=
  response ← reply_outcome n;
  _ ← raise_for_status response;
  data ← response_json response;
  r ← subscript data "result" (error_text response);
  ip ← subscript data "public_ip" (error_text response);
  dev ← subscript data "device_id" (error_text response);
  r ← validate_str r (error_text response);
  ip ← validate_str ip (error_text response);
  dev ← validate_str dev (error_text response);
  Return (r, ip, dev).

(** What the migration's statements say of a schema. *)
Module AlembicSpec.
Import Alembic.

(** The invariants of a schema that the database keeps: a row has cells for
    columns of its table only, a primary key is made of columns of its
    table, and an index is over columns of a table that exists. *)
Definition table_ok (t : table) : Prop :=
  Forall (fun r => map_Forall (fun c _ => c ∈ column_names t) r) (rows t)
  /\ Forall (fun k => k ∈ column_names t) (primary_key t).

Definition index_ok (s : schema) (ix : index) : Prop :=
  match tables s !! ix_table ix with
  | Some t => Forall (fun c => c ∈ column_names t) (ix_columns ix)
  | None => False
  end.

Definition schema_ok (s : schema) : Prop :=
  map_Forall (fun _ t => table_ok t) (tables s)
  /\ map_Forall (fun _ ix => index_ok s ix) (indexes s).

#[global] Instance table_ok_dec (t : table) : Decision (table_ok t).
Proof. unfold table_ok. apply _. Defined.
#[global] Instance index_ok_dec (s : schema) (ix : index) : Decision (index_ok s ix).
Proof. unfold index_ok. destruct (tables s !! ix_table ix); apply _. Defined.
#[global] Instance schema_ok_dec (s : schema) : Decision (schema_ok s).
Proof. unfold schema_ok. apply _. Defined.

(** The three columns that [upgrade] adds to [user]. *)
Definition flag_names : list string := ["has_subscription"; "is_trial"; "is_deactivated"].

(** What [upgrade] needs to find: the two names it creates are free, and
    the table [user] is there without the three columns. *)
Definition upgradable (s : schema) : Prop :=
  relation_free "useragent" s = true
  /\ relation_free "ix_useragent_user_agent" s = true
  /\ exists t, tables s !! "user" = Some t
               /\ forall n, n ∈ flag_names -> n ∉ column_names t.

(** The [user] table after [upgrade]. *)
Definition upgraded_user (t : table) : table :=
  {| columns := (columns t ++ [flag_column "has_subscription"; flag_column "is_trial";
                               flag_column "is_deactivated"])%list;
     primary_key := primary_key t;
     rows := (fun r => <["is_deactivated" := Some "false"]>
                         (<["is_trial" := Some "false"]>
                           (<["has_subscription" := Some "false"]> r)))
             <$> rows t |}.

(** The schema after [upgrade], [t] being the [user] table before. *)
Definition upgraded (s : schema) (t : table) : schema :=
  {| tables := <["user" := upgraded_user t]>
                 (<["useragent" := {| columns := useragent_columns;
                                      primary_key := ["id"]; rows := [] |}]> (tables s));
     indexes := <["ix_useragent_user_agent" :=
                    {| ix_table := "useragent"; ix_columns := ["user_agent"];
                       ix_unique := true |}]> (indexes s) |}.

End AlembicSpec.

(* ===================================================================== *)
(** ** Sample data *)
(* ===================================================================== *)

Definition sample_user : User.t :=
  {| User.id := "7f3c2a10-0000-4000-8000-000000000001";
     User.is_active := true; User.has_subscription := true |}.
Definition sample_session : Session := {| users := [sample_user]; api_tokens := [] |}.
Definition sample_datetime : datetime :=
  {| year := 2025; month := 3; day := 19; hour := 16; minute := 11; second := 30;
     microsecond := 715497 |}.
Definition sample_env_down : Environment := {|
  probe := fun _ => {| pr_reply := fun _ => Failed (HttpxError "ConnectTimeout");
                       pr_start := 10; pr_end := 15; pr_utcnow := sample_datetime |};
  post_reply := fun _ _ => Failed (HttpxError "ConnectTimeout");
  random_draw := 0;
  utcnow := sample_datetime
|}.

Definition sample_token_row (active : bool) : APIToken.t :=
  {| APIToken.user_id := "7f3c2a10-0000-4000-8000-000000000001";
     APIToken.token := "eyJhbGciOiJIUzI1NiJ9.payload.c2lnbmF0dXJl";
     APIToken.created_at := sample_datetime;
     APIToken.expires_at :=
       {| year := 2026; month := 3; day := 19; hour := 16; minute := 11;
          second := 30; microsecond := 0 |};
     APIToken.is_active := active |}.

(** Two states of the process with the same key: in the second the stored
    key has been deactivated. *)
Definition sample_world : World :=
  {| SECRET_KEY := "changethis";
     database := {| users := [sample_user]; api_tokens := [sample_token_row true] |} |}.
Definition sample_world_revoked : World :=
  {| SECRET_KEY := "changethis";
     database := {| users := [sample_user]; api_tokens := [sample_token_row false] |} |}.

Definition sample_upstream_body : pydict :=
  <["result" := PStr "<html></html>"]>
    (<["public_ip" := PStr "203.0.113.7"]>
      (<["device_id" := PStr "proxy6"]> ∅)).

Definition sample_ok : Response :=
  {| status_code := 200; body := None; error_text := "" |}.

Definition sample_env_up : Environment := {|
  probe := fun _ => {| pr_reply := fun _ => Replied sample_ok;
                       pr_start := 10; pr_end := 10.25; pr_utcnow := sample_datetime |};
  post_reply := fun _ _ =>
    Replied {| status_code := 200; body := Some (JObject sample_upstream_body);
               error_text := "" |};
  random_draw := 5;
  utcnow := sample_datetime
|}.

(** The wall clock is set back by five seconds while a probe runs (a
    correction of the system time: [time.time()] is not monotonic). *)
Definition sample_env_clock_back : Environment := {|
  probe := fun _ => {| pr_reply := fun _ => Replied sample_ok;
                       pr_start := 15; pr_end := 10; pr_utcnow := sample_datetime |};
  post_reply := fun _ _ => Failed (HttpxError "ConnectTimeout");
  random_draw := 0;
  utcnow := sample_datetime
|}.

(** The probes take a tenth of a second, two tenths, three tenths, as
    doubles have them. *)
Definition sample_env_tenths : Environment := {|
  probe := fun i => {| pr_reply := fun _ => Replied sample_ok;
                       pr_start := 0;
                       pr_end := Binary64.round (inject_Z (Z.of_nat i + 1) / 10);
                       pr_utcnow := sample_datetime |};
  post_reply := fun _ _ => Failed (HttpxError "ConnectTimeout");
  random_draw := 0;
  utcnow := sample_datetime
|}.

Definition sample_clock : issue_clock :=
  {| ic_iat := 1742400000; ic_exp := 1742400000;
     ic_created := sample_datetime; ic_expires_from := sample_datetime |}.

Definition sample_other_user : User.t :=
  {| User.id := "7f3c2a10-0000-4000-8000-000000000002";
     User.is_active := true; User.has_subscription := true |}.

(** A schema from before the migration: the table [user] with one row. *)
Definition sample_schema : Alembic.schema :=
  {| Alembic.tables :=
       {[ "user" :=
            {| Alembic.columns :=
                 [ {| Alembic.col_name := "id"; Alembic.col_type := Alembic.Uuid;
                      Alembic.nullable := false; Alembic.server_default := None |};
                   {| Alembic.col_name := "email";
                      Alembic.col_type := Alembic.AutoString 255;
                      Alembic.nullable := false; Alembic.server_default := None |} ];
               Alembic.primary_key := ["id"];
               Alembic.rows :=
                 [ {[ "id" := Some "'7f3c2a10-0000-4000-8000-000000000001'";
                      "email" := Some "'user@example.org'" ]} ] |} ]};
     Alembic.indexes :=
       {[ "ix_user_email" :=
            {| Alembic.ix_table := "user"; Alembic.ix_columns := ["email"];
               Alembic.ix_unique := true |} ]} |}.

(* ===================================================================== *)
(** * Properties *)
(* ===================================================================== *)

(** ** Strings and slices *)

Lemma length_append (a b : string) :
  String.length (a ++ b) = (String.length a + String.length b)%nat.
Proof. induction a as [|c a IH]; simpl; [reflexivity | now rewrite IH]. Qed.

Lemma substring_prefix (a r : string) :
  substring 0 (String.length a) (a ++ r) = a.
Proof.
  induction a as [|c a IH]; simpl.
  - now destruct r.
  - now rewrite IH.
Qed.

Lemma substring_skip (a r : string) (n k : nat) :
  substring (String.length a + n) k (a ++ r) = substring n k r.
Proof. induction a as [|c a IH]; simpl; [reflexivity | exact IH]. Qed.

Lemma substring_whole (s : string) : substring 0 (String.length s) s = s.
Proof. induction s as [|c s IH]; simpl; [reflexivity | now rewrite IH]. Qed.

Lemma string_split_at (s : string) (k : nat) :
  (k <= String.length s)%nat ->
  exists a r, s = a ++ r /\ String.length a = k
              /\ String.length r = (String.length s - k)%nat.
Proof.
  revert k. induction s as [|c s IH]; intros k Hk.
  - exists "", "". destruct k; simpl in *; [easy | lia].
  - destruct k as [|k].
    + exists "", (String c s). easy.
    + destruct (IH k) as (a & r & Hs & Ha & Hr); [simpl in Hk; lia|].
      exists (String c a), r. split; [|split].
      * change (String c a ++ r) with (String c (a ++ r)). now rewrite <- Hs.
      * simpl. now rewrite Ha.
      * exact Hr.
Qed.

Lemma clamp_index_spec (len i : Z) :
  0 <= len ->
  clamp_index len i = Z.max 0 (Z.min len (if i <? 0 then i + len else i)).
Proof.
  intros Hlen. unfold clamp_index. cbv zeta.
  destruct (Z.ltb_spec i 0).
  - destruct (Z.ltb_spec (i + len) 0); [lia|]. destruct (Z.ltb_spec len (i + len)); lia.
  - destruct (Z.ltb_spec i 0); [lia|]. destruct (Z.ltb_spec len i); lia.
Qed.

(** The two slices of the preview, without the index arithmetic: the first
    and the last [min 8 len] characters. *)
Lemma py_slice_front (s : string) :
  py_slice s None (Some FRONT_PREVIEW_LENGTH)
  = substring 0 (Nat.min 8 (String.length s)) s.
Proof.
  unfold py_slice. rewrite clamp_index_spec by lia.
  unfold FRONT_PREVIEW_LENGTH. change (8 <? 0) with false. cbv iota.
  f_equal. lia.
Qed.

Lemma py_slice_back (s : string) :
  py_slice s (Some (- END_PREVIEW_LENGTH)) None
  = substring (String.length s - Nat.min 8 (String.length s))
              (Nat.min 8 (String.length s)) s.
Proof.
  unfold py_slice. rewrite clamp_index_spec by lia.
  unfold END_PREVIEW_LENGTH. change (- (8) <? 0) with true. cbv iota.
  f_equal; lia.
Qed.

Lemma key_preview_eq (tok : string) :
  key_preview tok
  = Return (substring 0 (Nat.min 8 (String.length tok)) tok
            ++ "..."
            ++ substring (String.length tok - Nat.min 8 (String.length tok))
                         (Nat.min 8 (String.length tok)) tok).
Proof. unfold key_preview. now rewrite py_slice_front, py_slice_back. Qed.

Lemma key_preview_parts (a m b : string) :
  String.length a = 8%nat -> String.length b = 8%nat ->
  key_preview (a ++ m ++ b) = Return (a ++ "..." ++ b).
Proof.
  intros Ha Hb. rewrite key_preview_eq, !length_append, Ha, Hb.
  replace (Nat.min 8 (8 + (String.length m + 8))) with 8%nat by lia.
  replace (8 + (String.length m + 8) - 8)%nat with (8 + String.length m)%nat by lia.
  do 2 f_equal.
  - rewrite <- Ha at 1. apply substring_prefix.
  - f_equal. rewrite <- Ha at 1. rewrite substring_skip.
    replace (String.length m) with (String.length m + 0)%nat by lia.
    rewrite substring_skip. rewrite <- Hb at 1. apply substring_whole.
Qed.

(** C7, as amended.  A token of at least 16 characters splits into its
    first 8 characters, a middle and its last 8 characters, and the preview
    is the first 8, the ellipsis and the last 8, whatever the middle is.  A
    shorter token does not make the preview fail: the preview is then the
    first [min 8 len] characters, the ellipsis and the last [min 8 len]
    characters of the token. *)
Theorem key_preview_first_and_last (tok : string) :
  ((16 <= String.length tok)%nat ->
   exists a m b,
     tok = a ++ m ++ b /\ String.length a = 8%nat /\ String.length b = 8%nat
     /\ key_preview tok = Return (a ++ "..." ++ b)
     /\ forall m', key_preview (a ++ m' ++ b) = key_preview tok)
  /\ ((String.length tok < 16)%nat ->
      let k := Nat.min 8 (String.length tok) in
      key_preview tok
      = Return (substring 0 k tok ++ "..." ++ substring (String.length tok - k) k tok)).
Proof.
  split.
  - intros Hlen.
    destruct (string_split_at tok 8) as (a & r & Htok & Ha & Hr); [lia|].
    destruct (string_split_at r (String.length r - 8)) as (m & b & Hrm & Hm & Hb);
      [lia|].
    assert (Hb8 : String.length b = 8%nat) by lia.
    exists a, m, b. subst r tok.
    repeat split; try assumption.
    + now apply key_preview_parts.
    + intros m'. now rewrite !key_preview_parts.
  - intros _. apply key_preview_eq.
Qed.

(** The claim's second half fails at a ten-character token: the preview is
    returned, and shows every character of the token. *)
Lemma key_preview_short_token_returns :
  (String.length "abcdefghij" < 16)%nat
  /\ key_preview "abcdefghij" = Return "abcdefgh...cdefghij"
  /\ forall e, key_preview "abcdefghij" <> Raise e.
Proof. split; [simpl; lia|]. split; [reflexivity | discriminate]. Qed.

Example key_preview_long :
  key_preview "eyJhbGciOiJIUzI1NiJ9.payload.c2lnbmF0dXJl"
  = Return "eyJhbGci...bmF0dXJl".
Proof. reflexivity. Qed.

Example key_preview_empty : key_preview "" = Return "...".
Proof. reflexivity. Qed.

Lemma key_preview_first_and_last_witness :
  exists a m b,
    "eyJhbGciOiJIUzI1NiJ9.payload.c2lnbmF0dXJl" = a ++ m ++ b
    /\ String.length a = 8%nat /\ String.length b = 8%nat
    /\ key_preview "eyJhbGciOiJIUzI1NiJ9.payload.c2lnbmF0dXJl" = Return (a ++ "..." ++ b)
    /\ forall m', key_preview (a ++ m' ++ b)
                  = key_preview "eyJhbGciOiJIUzI1NiJ9.payload.c2lnbmF0dXJl".
Proof.
  apply (proj1 (key_preview_first_and_last "eyJhbGciOiJIUzI1NiJ9.payload.c2lnbmF0dXJl")).
  simpl. lia.
Defined.

(** ** The health probe *)

(** Unfolds a [forward] down to the answer of the network. *)
Ltac run_forward :=
  unfold forward, io_try_except_Exception, http_post, reply_outcome, lift,
    logger_error, response_json, subscript, validate_str, raise_for_status,
    mbind, io_bind, mret, io_ret;
  cbn [result calls].

Section ProxyFacts.
Context {F : PyFloat}.

Lemma check_proxy_health_result (run : probe_run) (endpoint region : string) :
  result (check_proxy_health run endpoint region)
  = Return {| Health.region := region;
              Health.is_healthy := probe_ok run endpoint;
              Health.response_time := float_sub (pr_end run) (pr_start run);
              Health.last_checked := pr_utcnow run |}.
Proof.
  unfold check_proxy_health, probe_ok, io_try_except_Exception, http_get,
    raise_for_status, lift, logger_error, mbind, io_bind, mret, io_ret.
  simpl. destruct (pr_reply run (endpoint ++ "/health")) as [r|e]; simpl.
  - destruct ((200 <=? status_code r) && (status_code r <=? 299)); reflexivity.
  - reflexivity.
Qed.

(** A probe only reads from the network (and may log). *)
Lemma check_proxy_health_posted (run : probe_run) (endpoint region : string) :
  posted (calls (check_proxy_health run endpoint region)) = [].
Proof.
  unfold check_proxy_health, probe_ok, io_try_except_Exception, http_get,
    raise_for_status, lift, logger_error, mbind, io_bind, mret, io_ret.
  simpl. destruct (pr_reply run (endpoint ++ "/health")) as [r|e]; simpl.
  - destruct ((200 <=? status_code r) && (status_code r <=? 299)); reflexivity.
  - reflexivity.
Qed.

(** The difference of two clock readings is not negative when the second
    is not before the first. *)
Lemma float_sub_nonneg (x y : Q) : (y <= x)%Q -> (0 <= float_sub x y)%Q.
Proof. intros H. apply fl_nonneg. lra. Qed.

(** C5, as amended.  Whatever the network answers, the probe returns a
    verdict and raises nothing; the verdict is healthy exactly when a
    response with a success status came back, so a request that raised and
    a response with another status both give [is_healthy = false]; and the
    response time is the second reading of the wall clock minus the first,
    as floats subtract, which is not negative when the clock did not go back
    between the two. *)
Theorem check_proxy_health_total (run : probe_run) (endpoint region : string) :
  exists h,
    result (check_proxy_health run endpoint region) = Return h
    /\ Health.response_time h = float_sub (pr_end run) (pr_start run)
    /\ ((pr_start run <= pr_end run)%Q -> (0 <= Health.response_time h)%Q)
    /\ (Health.is_healthy h = true <->
        exists r, pr_reply run (endpoint ++ "/health") = Replied r
                  /\ 200 <= status_code r <= 299)
    /\ (forall e, pr_reply run (endpoint ++ "/health") = Failed e ->
                  Health.is_healthy h = false)
    /\ (forall r, pr_reply run (endpoint ++ "/health") = Replied r ->
                  ~ 200 <= status_code r <= 299 ->
                  Health.is_healthy h = false).
Proof.
  eexists. split; [apply check_proxy_health_result|].
  cbn [Health.response_time Health.is_healthy].
  split; [reflexivity|]. split; [apply float_sub_nonneg|].
  unfold probe_ok. destruct (pr_reply run (endpoint ++ "/health")) as [r|e].
  - split; [|split].
    + rewrite andb_true_iff, !Z.leb_le. split.
      * intros H. exists r. split; [reflexivity | lia].
      * intros (r' & [= <-] & H). lia.
    + intros e [=].
    + intros r' [= <-] H. apply not_true_is_false. intros Ht.
      apply andb_true_iff in Ht. rewrite !Z.leb_le in Ht. lia.
  - split; [|split].
    + split; [discriminate|]. intros (r & [=] & _).
    + reflexivity.
    + intros r [=].
Qed.

(** ** Gathering the probes of a region *)

Lemma mapM_result_imap {A B} (f : nat -> A -> io B) (g : nat -> A -> B) (l : list A) :
  (forall i x, result (f i x) = Return (g i x)) ->
  mapM result (imap f l) = Return (imap g l).
Proof.
  revert f g. induction l as [|x l IH]; intros f g Hfg; [reflexivity|].
  cbn [imap mapM]. rewrite Hfg. cbn.
  rewrite (IH (f ∘ S) (g ∘ S)) by (intros; apply Hfg). reflexivity.
Qed.

(** The verdicts of a region's probes, by position. *)
Lemma gather_status_tasks (env : Environment) (endpoints : list string) (region : string) :
  result (gather (status_tasks env endpoints region))
  = Return (imap (fun i endpoint =>
                    {| Health.region := region;
                       Health.is_healthy := probe_ok (probe env i) endpoint;
                       Health.response_time :=
                         float_sub (pr_end (probe env i)) (pr_start (probe env i));
                       Health.last_checked := pr_utcnow (probe env i) |})
                 endpoints).
Proof.
  unfold gather, status_tasks. cbn [result].
  apply mapM_result_imap. intros i x. apply check_proxy_health_result.
Qed.

Lemma posted_app (l k : list event) : posted (l ++ k)%list = (posted l ++ posted k)%list.
Proof. apply omap_app. Qed.

Lemma posted_concat_imap {A B} (f : nat -> A -> io B) (l : list A) :
  (forall i x, posted (calls (f i x)) = []) ->
  posted (concat (calls <$> imap f l)) = [].
Proof.
  revert f. induction l as [|x l IH]; intros f Hf; [reflexivity|].
  cbn [imap fmap list_fmap concat]. rewrite posted_app, Hf. cbn.
  apply (IH (f ∘ S)). intros; apply Hf.
Qed.

Lemma gather_status_tasks_posted (env : Environment) (endpoints : list string)
    (region : string) :
  posted (calls (gather (status_tasks env endpoints region))) = [].
Proof.
  unfold gather, status_tasks. cbn [calls].
  apply posted_concat_imap. intros; apply check_proxy_health_posted.
Qed.

(** ** The status of a region *)

Lemma dict_get_In {V} (d : list (string * V)) (key : string) (v : V) :
  dict_get d key = Some v -> In (key, v) d.
Proof.
  induction d as [|[k x] d IH]; simpl; [discriminate|].
  destruct (String.eqb_spec k key) as [->|_].
  - intros [= ->]. now left.
  - intros H. right. now apply IH.
Qed.

(** Every region of the registry has an endpoint. *)
Lemma REGION_ENDPOINTS_nonempty (region : string) (endpoints : list string) :
  dict_get REGION_ENDPOINTS region = Some endpoints -> endpoints <> [].
Proof.
  intros H%dict_get_In.
  assert (Hall : forallb (fun p => negb (Nat.eqb (length (snd p)) 0)) REGION_ENDPOINTS = true)
    by reflexivity.
  rewrite forallb_forall in Hall. specialize (Hall _ H). simpl in Hall.
  intros ->. discriminate.
Qed.

Lemma Forall_imap_lt {A B} (P : B -> Prop) (f : nat -> A -> B) (l : list A) :
  (forall i x, (i < length l)%nat -> P (f i x)) -> Forall P (imap f l).
Proof.
  revert f. induction l as [|x l IH]; intros f Hf; cbn [imap]; constructor.
  - apply Hf. cbn. lia.
  - apply (IH (f ∘ S)). intros i y Hi. apply Hf. cbn. lia.
Qed.

Lemma count_verdicts_total (results : list Health.t) :
  count_verdicts true results + count_verdicts false results
  = Z.of_nat (length results).
Proof.
  unfold count_verdicts. induction results as [|r l IH]; [reflexivity|].
  rewrite !filter_cons. destruct (Health.is_healthy r) eqn:E.
  - rewrite decide_True by reflexivity. rewrite decide_False by discriminate.
    cbn [length]. lia.
  - rewrite decide_False by discriminate. rewrite decide_True by reflexivity.
    cbn [length]. lia.
Qed.

(** The float mean of a non-empty list is the arithmetic mean where the
    arithmetic does not round, and it is not negative when no term is. *)
Lemma float_mean_exact (l : list Q) :
  exact_arithmetic F -> (float_mean l == arithmetic_mean l)%Q.
Proof.
  intros [Hfl Hsum]. unfold float_mean, float_div, arithmetic_mean.
  rewrite Hfl. now rewrite Hsum.
Qed.

Lemma float_mean_nonneg (l : list Q) :
  l <> [] -> Forall (fun q => (0 <= q)%Q) l -> (0 <= float_mean l)%Q.
Proof.
  intros Hne Hl. unfold float_mean, float_div. apply fl_nonneg.
  apply Qle_shift_div_l.
  - replace 0%Q with (inject_Z 0) by reflexivity. rewrite <- Zlt_Qlt.
    destruct l; [congruence | cbn; lia].
  - rewrite Qmult_0_l. now apply float_sum_nonneg.
Qed.

(** C6, as amended.  For a region of the registry: the status counts as
    healthy the verdicts that say so, healthy and unhealthy verdicts add up
    to the number of endpoints, the average response time is the sum of the
    verdicts' response times divided by their number, as floats add and
    divide (the arithmetic mean where the arithmetic does not round), it is
    not negative when the clock of no probe went back, and the region is
    healthy exactly when the healthy count is positive. *)
Theorem get_proxy_status_aggregates (env : Environment) (region : string)
    (endpoints : list string) (user : User.t) (session : Session) :
  dict_get REGION_ENDPOINTS region = Some endpoints ->
  exists results status,
    result (gather (status_tasks env endpoints region)) = Return results
    /\ result (get_proxy_status env region user session)
       = Return {| statuses := [status] |}
    /\ length results = length endpoints
    /\ ProxyStatus.total_endpoints status = Z.of_nat (length endpoints)
    /\ ProxyStatus.healthy_endpoints status = count_verdicts true results
    /\ ProxyStatus.healthy_endpoints status + count_verdicts false results
       = ProxyStatus.total_endpoints status
    /\ ProxyStatus.avg_response_time status
       = float_mean (Health.response_time <$> results)
    /\ (exact_arithmetic F ->
        (ProxyStatus.avg_response_time status
         == arithmetic_mean (Health.response_time <$> results))%Q)
    /\ ((forall i, (i < length endpoints)%nat ->
                   (pr_start (probe env i) <= pr_end (probe env i))%Q) ->
        (0 <= ProxyStatus.avg_response_time status)%Q)
    /\ (ProxyStatus.is_healthy status = true
        <-> 0 < ProxyStatus.healthy_endpoints status).
Proof.
  intros Hreg.
  pose proof (REGION_ENDPOINTS_nonempty _ _ Hreg) as Hne.
  pose proof (gather_status_tasks env endpoints region) as Hg.
  set (results := imap _ endpoints) in Hg.
  assert (Hlen : length results = length endpoints) by apply length_imap.
  assert (Hpos : 0 < Z.of_nat (length endpoints))
    by (destruct endpoints; [congruence | simpl; lia]).
  exists results. eexists. split; [exact Hg|].
  split.
  { unfold get_proxy_status. rewrite Hreg.
    unfold mbind, io_bind. rewrite Hg. cbn [result mret io_ret]. reflexivity. }
  cbn [ProxyStatus.total_endpoints ProxyStatus.healthy_endpoints
       ProxyStatus.avg_response_time ProxyStatus.is_healthy].
  split; [exact Hlen|]. split; [reflexivity|]. split; [reflexivity|].
  split; [rewrite <- Hlen; apply count_verdicts_total|].
  assert (Havg : (if 0 <? Z.of_nat (length endpoints)
                  then float_div (sum_response_time results)
                         (inject_Z (Z.of_nat (length endpoints)))
                  else 0%Q)
                 = float_mean (Health.response_time <$> results)).
  { destruct (Z.ltb_spec 0 (Z.of_nat (length endpoints))); [|lia].
    unfold float_mean, sum_response_time. now rewrite length_fmap, Hlen. }
  rewrite Havg. split; [reflexivity|]. split; [apply float_mean_exact|]. split.
  - intros Hclock. apply float_mean_nonneg.
    + intros Hnil. apply (f_equal length) in Hnil. rewrite length_fmap, Hlen in Hnil.
      destruct endpoints; [congruence | discriminate].
    + apply Forall_fmap, Forall_imap_lt. intros i x Hi. cbn [Health.response_time compose].
      now apply float_sub_nonneg, Hclock.
  - apply Z.ltb_lt.
Qed.

(** ** Selecting an endpoint and forwarding *)

Lemma healthy_from_spec (results : list Health.t) (endpoints : list string) (i : nat) :
  (length results <= length (drop i endpoints))%nat ->
  healthy_from endpoints i results
  = Return (healthy_subset (drop i endpoints) results).
Proof.
  revert i. induction results as [|r rest IH]; intros i Hlen.
  - unfold healthy_subset. now rewrite zip_with_nil_r.
  - cbn [length] in Hlen.
    assert (Hi : (i < length endpoints)%nat) by (rewrite length_drop in Hlen; lia).
    destruct (lookup_lt_is_Some_2 endpoints i Hi) as [e He].
    rewrite (drop_S _ _ _ He) in *. cbn [length] in Hlen.
    cbn [healthy_from]. rewrite He, IH by lia.
    unfold healthy_subset. cbn [zip_with]. rewrite filter_cons. cbn [snd].
    destruct (Health.is_healthy r).
    + rewrite decide_True by reflexivity. reflexivity.
    + rewrite decide_False by discriminate. reflexivity.
Qed.

Lemma random_choice_elem {A} (r : nat) (seq : list A) (x : A) :
  random_choice r seq = Return x -> x ∈ seq.
Proof.
  unfold random_choice. destruct (seq !! _) eqn:E; [|discriminate].
  intros [= <-]. eapply list_elem_of_lookup_2, E.
Qed.

Lemma random_choice_nonempty {A} (r : nat) (seq : list A) :
  seq <> [] -> exists x, random_choice r seq = Return x.
Proof.
  intros Hne. unfold random_choice.
  destruct (lookup_lt_is_Some_2 seq (r mod length seq)%nat) as [x Hx].
  - apply Nat.mod_upper_bound. destruct seq; [congruence | simpl; lia].
  - exists x. now rewrite Hx.
Qed.

(** What [select_endpoint] comes to, given the verdicts of the probes. *)
Lemma select_endpoint_result (env : Environment) (endpoints : list string)
    (region : string) (results : list Health.t) :
  result (gather (status_tasks env endpoints region)) = Return results ->
  result (select_endpoint env endpoints region)
  = match healthy_subset endpoints results with
    | [] => Raise (HTTPException 503
                     ("No healthy proxy endpoints available in " ++ region))
    | h :: t => random_choice (random_draw env) (h :: t)
    end
  /\ posted (calls (select_endpoint env endpoints region)) = [].
Proof.
  intros Hg.
  assert (Hlen : length results = length endpoints).
  { rewrite gather_status_tasks in Hg. injection Hg as <-. apply length_imap. }
  pose proof (gather_status_tasks_posted env endpoints region) as Hp.
  unfold select_endpoint, mbind, io_bind. rewrite Hg. cbn [lift result calls].
  rewrite healthy_from_spec by (rewrite drop_0; lia). rewrite drop_0.
  destruct (healthy_subset endpoints results); cbn [result calls];
    rewrite !app_nil_r; split; assumption || reflexivity.
Qed.

(** A forward posts once, to the selected endpoint. *)
Lemma forward_posted (env : Environment) (selected_endpoint region : string)
    (request : ProxyRequest) :
  posted (calls (forward env selected_endpoint region request))
  = [selected_endpoint ++ "/fetch"].
Proof.
  run_forward.
  destruct (post_reply env _ _) as [rsp|e]; cbn [result calls]; [|reflexivity].
  destruct ((200 <=? status_code rsp) && (status_code rsp <=? 299));
    cbn [result calls]; [|reflexivity].
  destruct (body rsp) as [[d|v]|]; cbn [result calls]; try reflexivity.
  destruct (d !! "result") as [[]|]; cbn [result calls]; try reflexivity.
  all: destruct (d !! "public_ip") as [[]|]; cbn [result calls]; try reflexivity.
  all: destruct (d !! "device_id") as [[]|]; cbn [result calls]; reflexivity.
Qed.

(** A forward that returns read each field of its response in the body of
    the answer to its POST. *)
Lemma forward_success (env : Environment) (selected_endpoint region : string)
    (request : ProxyRequest) (resp : ProxyResponse.t) :
  result (forward env selected_endpoint region request) = Return resp ->
  exists rsp d,
    post_reply env (selected_endpoint ++ "/fetch") {[ "url" := PStr (url request) ]}
    = Replied rsp
    /\ 200 <= status_code rsp <= 299
    /\ body rsp = Some (JObject d)
    /\ d !! "result" = Some (PStr (ProxyResponse.result resp))
    /\ d !! "public_ip" = Some (PStr (ProxyResponse.public_ip resp))
    /\ d !! "device_id" = Some (PStr (ProxyResponse.device_id resp))
    /\ ProxyResponse.region_used resp = region.
Proof.
  run_forward.
  destruct (post_reply env _ _) as [rsp|e] eqn:Hpost; cbn [result calls];
    [|discriminate].
  destruct ((200 <=? status_code rsp) && (status_code rsp <=? 299)) eqn:Hst;
    cbn [result calls]; [|discriminate].
  destruct (body rsp) as [[d|v]|] eqn:Hbody; cbn [result calls]; try discriminate.
  destruct (d !! "result") as [[]|] eqn:H1; cbn [result calls]; try discriminate.
  all: destruct (d !! "public_ip") as [[]|] eqn:H2; cbn [result calls]; try discriminate.
  all: destruct (d !! "device_id") as [[]|] eqn:H3; cbn [result calls]; try discriminate.
  intros [= <-]. exists rsp, d. cbn.
  apply andb_true_iff in Hst. rewrite !Z.leb_le in Hst.
  repeat split; try assumption; try reflexivity; lia.
Qed.

Lemma healthy_subset_endpoints (endpoints : list string) (results : list Health.t)
    (e : string) :
  e ∈ healthy_subset endpoints results -> e ∈ endpoints.
Proof.
  unfold healthy_subset. intros ([x r] & -> & H)%list_elem_of_fmap.
  apply list_elem_of_filter in H as [_ H]. cbn.
  apply list_elem_of_lookup in H as [i Hi].
  apply lookup_zip_with_Some in Hi as (x' & r' & [= <- <-] & Hx & _).
  eapply list_elem_of_lookup_2, Hx.
Qed.

(** C4.  For a region of the registry, the endpoint that [proxy_fetch]
    selects is one whose fresh verdict is healthy, and the forwarded POST
    goes to it and nowhere else; when no verdict is healthy, the operation
    raises 503 and has posted nothing. *)
Theorem proxy_fetch_selects_healthy (env : Environment) (session : Session)
    (region : string) (request : ProxyRequest) (user : User.t)
    (endpoints : list string) :
  dict_get REGION_ENDPOINTS region = Some endpoints ->
  exists results,
    result (gather (status_tasks env endpoints region)) = Return results
    /\ (forall selected,
          result (select_endpoint env endpoints region) = Return selected ->
          selected ∈ healthy_subset endpoints results)
    /\ (healthy_subset endpoints results = [] ->
          result (proxy_fetch env session region request user)
          = Raise (HTTPException 503
                     ("No healthy proxy endpoints available in " ++ region))
          /\ posted (calls (proxy_fetch env session region request user)) = [])
    /\ (healthy_subset endpoints results <> [] ->
          exists selected,
            selected ∈ healthy_subset endpoints results
            /\ result (select_endpoint env endpoints region) = Return selected
            /\ posted (calls (proxy_fetch env session region request user))
               = [selected ++ "/fetch"]).
Proof.
  intros Hreg. eexists. split; [apply gather_status_tasks|].
  set (results := imap _ endpoints).
  destruct (select_endpoint_result env endpoints region results
              (gather_status_tasks env endpoints region)) as [Hsel Hposted].
  split; [|split].
  - intros selected Hs. rewrite Hsel in Hs.
    destruct (healthy_subset endpoints results) as [|h t]; [discriminate|].
    eapply random_choice_elem, Hs.
  - intros Hnone. rewrite Hnone in Hsel.
    unfold proxy_fetch. rewrite Hreg. unfold mbind, io_bind. rewrite Hsel.
    cbn [result calls]. split; [reflexivity | exact Hposted].
  - intros Hsome.
    destruct (healthy_subset endpoints results) as [|h t] eqn:Hh; [congruence|].
    destruct (random_choice_nonempty (random_draw env) (h :: t)) as [selected Hc];
      [discriminate|].
    exists selected. rewrite Hsel.
    split; [eapply random_choice_elem, Hc|]. split; [exact Hc|].
    unfold proxy_fetch. rewrite Hreg. unfold mbind, io_bind. rewrite Hsel, Hc.
    cbn [calls]. rewrite posted_app, Hposted. apply forward_posted.
Qed.

(** C10.  A [proxy_fetch] that returns names the requested region in
    [region_used], and each of its other fields is a string read in the body
    of the upstream answer: the response has no field for the endpoint that
    served it, which is one of the region's. *)
Theorem proxy_fetch_region_used (env : Environment) (session : Session)
    (region : string) (request : ProxyRequest) (user : User.t)
    (resp : ProxyResponse.t) :
  result (proxy_fetch env session region request user) = Return resp ->
  ProxyResponse.region_used resp = region
  /\ exists endpoints selected rsp d,
       dict_get REGION_ENDPOINTS region = Some endpoints
       /\ selected ∈ endpoints
       /\ post_reply env (selected ++ "/fetch") {[ "url" := PStr (url request) ]}
          = Replied rsp
       /\ body rsp = Some (JObject d)
       /\ resp = {| ProxyResponse.result := ProxyResponse.result resp;
                    ProxyResponse.public_ip := ProxyResponse.public_ip resp;
                    ProxyResponse.device_id := ProxyResponse.device_id resp;
                    ProxyResponse.region_used := region |}
       /\ d !! "result" = Some (PStr (ProxyResponse.result resp))
       /\ d !! "public_ip" = Some (PStr (ProxyResponse.public_ip resp))
       /\ d !! "device_id" = Some (PStr (ProxyResponse.device_id resp)).
Proof.
  unfold proxy_fetch. destruct (dict_get REGION_ENDPOINTS region) as [endpoints|] eqn:Hreg;
    [|discriminate].
  unfold mbind, io_bind.
  destruct (result (select_endpoint env endpoints region)) as [selected|e] eqn:Hs;
    [|discriminate].
  cbn [result]. intros Hf.
  destruct (forward_success _ _ _ _ _ Hf) as (rsp & d & Hpost & _ & Hbody & H1 & H2 & H3 & Hr).
  split; [exact Hr|].
  exists endpoints, selected, rsp, d.
  destruct (select_endpoint_result env endpoints region _
              (gather_status_tasks env endpoints region)) as [Hsel _].
  rewrite Hs in Hsel.
  repeat split; try assumption.
  - symmetry in Hsel.
    destruct (healthy_subset endpoints _) as [|h t] eqn:Hh; [discriminate|].
    eapply healthy_subset_endpoints. rewrite Hh. eapply random_choice_elem, Hsel.
  - destruct resp. cbn in *. now subst.
Qed.

End ProxyFacts.

(** ** The reference codec reads back what it writes *)

Lemma pos_of_bits_of_pos (p : positive) :
  Reference.pos_of_bits (Reference.bits_of_pos p) = Some p.
Proof. induction p as [p IH|p IH|]; cbn; [now rewrite IH ..| reflexivity]. Qed.

Lemma split_dot_bits (p : positive) (rest : string) :
  Reference.split_dot (Reference.bits_of_pos p ++ "." ++ rest)
  = Some (Reference.bits_of_pos p, rest).
Proof.
  induction p as [p IH|p IH|]; cbn [Reference.bits_of_pos].
  - change (String "1" ?a ++ ?b) with (String "1" (a ++ b)).
    cbn [Reference.split_dot]. change (Ascii.eqb "1" ".") with false. cbv iota.
    now rewrite IH.
  - change (String "0" ?a ++ ?b) with (String "0" (a ++ b)).
    cbn [Reference.split_dot]. change (Ascii.eqb "0" ".") with false. cbv iota.
    now rewrite IH.
  - reflexivity.
Qed.

Lemma reference_round_trip : jws_round_trip Reference.lib.
Proof.
  intros h p sg. cbn [jws_load jws_attach jws_signing_input Reference.lib].
  unfold Reference.load. rewrite split_dot_bits. cbn.
  rewrite pos_of_bits_of_pos. cbn. rewrite decode_encode. reflexivity.
Qed.

(** ** Issuing and verifying keys *)

Section SecurityFacts.
Context {lib : PyJWT}.

Lemma py_int_floor (q : Q) :
  (0 <= q)%Q -> py_int (PNum q) = Some (Qfloor q).
Proof.
  intros Hq. destruct q as [n d]. cbn. f_equal.
  apply Z.quot_div_nonneg; [|lia].
  unfold Qle in Hq. cbn in Hq. lia.
Qed.

(** Every exception of [jwt.decode] is one of PyJWT's, or the [TypeError]
    of an [int] that its checks do not catch. *)
Lemma claim_int_raises (v : pyval) (otherwise : pyjwt_error) (e : exn) :
  claim_int v otherwise = Raise e ->
  (exists k, e = PyJWTError k) \/ (exists m, e = TypeError m).
Proof. unfold claim_int. repeat case_match; intros; simplify_eq; eauto. Qed.

Lemma claim_str_raises (v : option pyval) (otherwise : pyjwt_error) (e : exn) :
  claim_str v otherwise = Raise e -> exists k, e = PyJWTError k.
Proof. unfold claim_str. repeat case_match; intros; simplify_eq; eauto. Qed.

Lemma validate_claims_raises (payload : pydict) (now : Q) (e : exn) :
  validate_claims payload now = Raise e ->
  (exists k, e = PyJWTError k) \/ (exists m, e = TypeError m).
Proof.
  unfold validate_claims, mbind, outcome_bind.
  repeat case_match; intros; simplify_eq;
    eauto using claim_int_raises, claim_str_raises.
Qed.

Lemma jwt_decode_raises (token key : string) (algorithms : list string)
    (now : Q) (e : exn) :
  jwt_decode token key algorithms now = Raise e ->
  (exists k, e = PyJWTError k) \/ (exists m, e = TypeError m).
Proof.
  unfold jwt_decode, mbind, outcome_bind.
  repeat case_match; intros; simplify_eq; eauto using validate_claims_raises.
Qed.

(** The [except JWTError] clause of [verify_api_key] never fires. *)
Lemma verify_api_key_eq (w : World) (now : Q) (api_key : string) :
  verify_api_key w now api_key
  = (payload ← jwt_decode api_key (SECRET_KEY w) [ALGORITHM] now;
     Return (Some payload)).
Proof.
  unfold verify_api_key, try_except_JWTError, mbind, outcome_bind.
  destruct (jwt_decode _ _ _ _) as [p|e] eqn:E; [reflexivity|].
  apply jwt_decode_raises in E as [[k ->]|[m ->]]; reflexivity.
Qed.

End SecurityFacts.

(** C2 (the code departs from it).  [verify_api_key] is [jwt.decode] with
    the payload wrapped: the exceptions of [jwt.decode] are PyJWT's (or a
    [TypeError] of Python's), the clause catches python-jose's, so each of
    them reaches the caller and the failure value [None] is never returned.
    In particular a string that is no compact token raises [DecodeError]. *)
Theorem verify_api_key_lets_errors_through (lib : PyJWT) (w : World) (now : Q)
    (api_key : string) :
  verify_api_key w now api_key
  = (payload ← jwt_decode api_key (SECRET_KEY w) [ALGORITHM] now;
     Return (Some payload))
  /\ verify_api_key w now api_key <> Return None
  /\ (jws_load api_key = None ->
      verify_api_key w now api_key = Raise (PyJWTError DecodeError)).
Proof.
  split; [apply verify_api_key_eq|]. split.
  - rewrite verify_api_key_eq. unfold mbind, outcome_bind.
    destruct (jwt_decode _ _ _ _); discriminate.
  - intros Hload. rewrite verify_api_key_eq. unfold jwt_decode. now rewrite Hload.
Qed.

Lemma verify_api_key_lets_errors_through_witness :
  verify_api_key (lib := Reference.lib) sample_world 1742400000 "not-a-jwt"
  = Raise (PyJWTError DecodeError).
Proof.
  apply (verify_api_key_lets_errors_through Reference.lib sample_world 1742400000
           "not-a-jwt").
  reflexivity.
Defined.

Section KeyRoundTrip.
Context {lib : PyJWT}.

Lemma generated_payload_lookups (uid : string) (t_iat t_exp : Q) :
  let payload : pydict :=
    <["user_id" := PStr uid]>
      (<["iat" := PNum t_iat]> (<["exp" := PNum (t_exp + DAYS_365)%Q]> ∅)) in
  payload !! "user_id" = Some (PStr uid)
  /\ payload !! "iat" = Some (PNum t_iat)
  /\ payload !! "nbf" = None
  /\ payload !! "exp" = Some (PNum (t_exp + DAYS_365)%Q)
  /\ payload !! "aud" = None.
Proof. cbv zeta. repeat split; by simplify_map_eq. Qed.

Lemma jwt_decode_generated (Hrt : jws_round_trip lib) (w : World)
    (t_iat t_exp now : Q) (uid : string) :
  jwt_decode (generate_api_key w t_iat t_exp uid) (SECRET_KEY w) [ALGORITHM] now
  = (_ ← validate_claims
           (<["user_id" := PStr uid]>
              (<["iat" := PNum t_iat]> (<["exp" := PNum (t_exp + DAYS_365)%Q]> ∅)))
           now;
     Return (<["user_id" := PStr uid]>
              (<["iat" := PNum t_iat]> (<["exp" := PNum (t_exp + DAYS_365)%Q]> ∅)))).
Proof.
  unfold jwt_decode, generate_api_key, jwt_encode. rewrite Hrt. cbn [alg].
  rewrite bool_decide_true by (apply list_elem_of_singleton; reflexivity).
  cbn [negb]. rewrite String.eqb_refl. reflexivity.
Qed.

End KeyRoundTrip.

(** C3.  With a library that reads back what it writes, and clock readings
    after the epoch: a key verified at any instant from its issuance up to
    one second before the 365 days are over gives back the payload, whose
    [user_id] is the one the key was issued for; and verified at or after
    its [exp] the key gives no payload, the verification fails with one of
    the library's exceptions. *)
Theorem issue_then_verify (lib : PyJWT) (w : World) (t_iat t_exp now : Q)
    (user_id : string) :
  jws_round_trip lib ->
  (0 <= t_iat)%Q -> (0 <= t_exp)%Q ->
  ((t_iat <= now)%Q -> (now <= t_exp + DAYS_365 - 1)%Q ->
   exists payload,
     verify_api_key w now (generate_api_key w t_iat t_exp user_id)
     = Return (Some payload)
     /\ payload !! "user_id" = Some (PStr user_id))
  /\ ((t_exp + DAYS_365 <= now)%Q ->
      exists e,
        verify_api_key w now (generate_api_key w t_iat t_exp user_id)
        = Raise (PyJWTError e)).
Proof.
  intros Hrt Hiat Hexp.
  assert (Hyear : (0 <= DAYS_365)%Q) by (unfold DAYS_365, Qle; cbn; lia).
  assert (Hexp' : (0 <= t_exp + DAYS_365)%Q) by lra.
  destruct (generated_payload_lookups user_id t_iat t_exp)
    as (Huid & Hi & Hn & He & Ha).
  rewrite verify_api_key_eq, jwt_decode_generated by assumption.
  unfold validate_claims, claim_int. rewrite Hi, Hn, He, Ha.
  rewrite !py_int_floor by assumption.
  pose proof (Qfloor_le t_iat) as Hfi.
  pose proof (Qfloor_le (t_exp + DAYS_365)) as Hfe.
  pose proof (Qlt_floor (t_exp + DAYS_365)) as Hfe'.
  rewrite inject_Z_plus in Hfe'. change (inject_Z 1) with 1%Q in Hfe'.
  unfold mbind, outcome_bind. split.
  - intros Hnow Hlate.
    destruct (Qle_bool (inject_Z (Qfloor t_iat)) now) eqn:E1.
    2:{ apply not_true_iff_false in E1. rewrite Qle_bool_iff in E1. lra. }
    destruct (Qle_bool (inject_Z (Qfloor (t_exp + DAYS_365))) now) eqn:E2.
    1:{ rewrite Qle_bool_iff in E2. lra. }
    eexists. split; [reflexivity | exact Huid].
  - intros Hnow.
    destruct (Qle_bool (inject_Z (Qfloor t_iat)) now); [|eauto].
    destruct (Qle_bool (inject_Z (Qfloor (t_exp + DAYS_365))) now) eqn:E2; [eauto|].
    apply not_true_iff_false in E2. rewrite Qle_bool_iff in E2. lra.
Qed.

Lemma issue_then_verify_witness :
  (exists payload,
     verify_api_key (lib := Reference.lib) sample_world 1742400060
       (generate_api_key (lib := Reference.lib) sample_world 1742400000 1742400000
          "7f3c2a10-0000-4000-8000-000000000001")
     = Return (Some payload)
     /\ payload !! "user_id" = Some (PStr "7f3c2a10-0000-4000-8000-000000000001"))
  /\ exists e,
       verify_api_key (lib := Reference.lib) sample_world 1773936000
         (generate_api_key (lib := Reference.lib) sample_world 1742400000 1742400000
            "7f3c2a10-0000-4000-8000-000000000001")
       = Raise (PyJWTError e).
Proof.
  split.
  - apply (issue_then_verify Reference.lib sample_world 1742400000 1742400000
             1742400060 "7f3c2a10-0000-4000-8000-000000000001");
      [apply reference_round_trip | unfold Qle; cbn; lia ..].
  - apply (issue_then_verify Reference.lib sample_world 1742400000 1742400000
             1773936000 "7f3c2a10-0000-4000-8000-000000000001");
      [apply reference_round_trip | unfold Qle; cbn; lia ..].
Defined.

(** C9.  Two states of the process that hold the same secret key give
    [verify_api_key] the same outcome on the same key string at the same
    instant, whatever their databases hold: the stored [is_active] flag of
    the key is not consulted. *)
Theorem verify_api_key_ignores_database (lib : PyJWT) (w1 w2 : World) (now : Q)
    (api_key : string) :
  SECRET_KEY w1 = SECRET_KEY w2 ->
  verify_api_key w1 now api_key = verify_api_key w2 now api_key.
Proof. intros Hkey. unfold verify_api_key. now rewrite Hkey. Qed.

Lemma verify_api_key_ignores_database_witness :
  database sample_world <> database sample_world_revoked
  /\ verify_api_key (lib := Reference.lib) sample_world 1742400060
       "eyJhbGciOiJIUzI1NiJ9.payload.c2lnbmF0dXJl"
     = verify_api_key (lib := Reference.lib) sample_world_revoked 1742400060
         "eyJhbGciOiJIUzI1NiJ9.payload.c2lnbmF0dXJl".
Proof.
  split; [discriminate|].
  apply (verify_api_key_ignores_database Reference.lib sample_world
           sample_world_revoked). reflexivity.
Defined.

(** ** The Authorization Gate *)

Section Gate.
Context {lib : PyJWT}.

(** The gate, with [verify_api_key] replaced by what it comes to. *)
Lemma verify_api_token_cases (w : World) (now : Q) (session : Session)
    (x_api_key : option string) :
  verify_api_token w now session x_api_key
  = if header_missing x_api_key
    then Raise (HTTPException 401 "API key required")
    else
      match jwt_decode (default "" x_api_key) (SECRET_KEY w) [ALGORITHM] now with
      | Raise e => Raise e
      | Return payload =>
          if payload_unusable (Some payload)
          then Raise (HTTPException 401 "Invalid API key")
          else
            match read_user_by_id session (default PNone (payload !! "user_id")) with
            | None => Raise (HTTPException 401 "Invalid or inactive user")
            | Some u =>
                if negb (User.is_active u)
                then Raise (HTTPException 401 "Invalid or inactive user")
                else if negb (User.has_subscription u)
                then Raise (HTTPException 403 "Active subscription required")
                else Return u
            end
      end.
Proof.
  unfold verify_api_token. destruct (header_missing x_api_key); [reflexivity|].
  rewrite verify_api_key_eq. unfold mbind, outcome_bind.
  destruct (jwt_decode _ _ _ _); reflexivity.
Qed.

(** The checks that the gate gets right: no header, 401; a verified payload
    without [user_id], 401; no such user or an inactive one, 401; no
    subscription, 403; and the user is returned exactly when the key
    verifies and names an active, subscribed user. *)
Lemma verify_api_token_missing (w : World) (now : Q) (session : Session) :
  verify_api_token w now session None
  = Raise (HTTPException 401 "API key required").
Proof. reflexivity. Qed.

Lemma verify_api_token_returns (w : World) (now : Q) (session : Session)
    (x_api_key : option string) (u : User.t) :
  verify_api_token w now session x_api_key = Return u
  <-> exists api_key payload user_id,
        x_api_key = Some api_key /\ api_key <> ""
        /\ jwt_decode api_key (SECRET_KEY w) [ALGORITHM] now = Return payload
        /\ payload !! "user_id" = Some user_id
        /\ read_user_by_id session user_id = Some u
        /\ User.is_active u = true
        /\ User.has_subscription u = true.
Proof.
  rewrite verify_api_token_cases. split.
  - destruct x_api_key as [api_key|]; cbn [header_missing]; [|discriminate].
    destruct (String.eqb_spec api_key "") as [->|Hne]; [discriminate|].
    cbn [default from_option id]. destruct (jwt_decode _ _ _ _) as [payload|e] eqn:Hd; [|discriminate].
    unfold payload_unusable.
    destruct (bool_decide (payload = ∅)); [discriminate|].
    destruct (payload !! "user_id") as [uid|] eqn:Huid;
      [rewrite bool_decide_false by done
      |rewrite bool_decide_true by done; discriminate].
    cbn [orb default from_option id].
    destruct (read_user_by_id session uid) as [u'|] eqn:Hu; [|discriminate].
    destruct (User.is_active u') eqn:Ha; [|discriminate].
    destruct (User.has_subscription u') eqn:Hs; [|discriminate].
    cbn [negb]. intros [= <-]. exists api_key, payload, uid.
    repeat split; assumption || reflexivity.
  - intros (api_key & payload & uid & -> & Hne & Hd & Huid & Hu & Ha & Hs).
    cbn [header_missing default from_option id]. apply String.eqb_neq in Hne. rewrite Hne, Hd.
    unfold payload_unusable.
    rewrite bool_decide_false by (intros ->; rewrite lookup_empty in Huid; discriminate).
    rewrite Huid, bool_decide_false by done.
    cbn [orb default from_option id]. now rewrite Hu, Ha, Hs.
Qed.

Lemma verify_api_token_forbidden (w : World) (now : Q) (session : Session)
    (api_key : string) (payload : pydict) (user_id : pyval) (u : User.t) :
  api_key <> "" ->
  jwt_decode api_key (SECRET_KEY w) [ALGORITHM] now = Return payload ->
  payload !! "user_id" = Some user_id ->
  read_user_by_id session user_id = Some u ->
  User.is_active u = true ->
  User.has_subscription u = false ->
  verify_api_token w now session (Some api_key)
  = Raise (HTTPException 403 "Active subscription required").
Proof.
  intros Hne Hd Huid Hu Ha Hs. rewrite verify_api_token_cases.
  cbn [header_missing default from_option id]. apply String.eqb_neq in Hne. rewrite Hne, Hd.
  unfold payload_unusable.
  rewrite bool_decide_false by (intros ->; rewrite lookup_empty in Huid; discriminate).
  rewrite Huid, bool_decide_false by done.
  cbn [orb default from_option id]. now rewrite Hu, Ha, Hs.
Qed.

Lemma verify_api_token_unknown_user (w : World) (now : Q) (session : Session)
    (api_key : string) (payload : pydict) (user_id : pyval) :
  api_key <> "" ->
  jwt_decode api_key (SECRET_KEY w) [ALGORITHM] now = Return payload ->
  payload !! "user_id" = Some user_id ->
  (read_user_by_id session user_id = None
   \/ exists u, read_user_by_id session user_id = Some u /\ User.is_active u = false) ->
  verify_api_token w now session (Some api_key)
  = Raise (HTTPException 401 "Invalid or inactive user").
Proof.
  intros Hne Hd Huid Hu. rewrite verify_api_token_cases.
  cbn [header_missing default from_option id]. apply String.eqb_neq in Hne. rewrite Hne, Hd.
  unfold payload_unusable.
  rewrite bool_decide_false by (intros ->; rewrite lookup_empty in Huid; discriminate).
  rewrite Huid, bool_decide_false by done.
  cbn [orb default from_option id]. destruct Hu as [->|(u & -> & ->)]; reflexivity.
Qed.

(** The gate reads the users of the session and nothing of its stored
    keys: a key that was deactivated passes as before. *)
Lemma verify_api_token_ignores_api_tokens (w1 w2 : World) (now : Q)
    (session1 session2 : Session) (x_api_key : option string) :
  SECRET_KEY w1 = SECRET_KEY w2 ->
  users session1 = users session2 ->
  verify_api_token w1 now session1 x_api_key
  = verify_api_token w2 now session2 x_api_key.
Proof.
  intros Hkey Husers. rewrite !verify_api_token_cases.
  unfold read_user_by_id. now rewrite Hkey, Husers.
Qed.

End Gate.

(** C1 (the code departs from it).  A key that fails verification does not
    end in the gate's 401: the exception of [jwt.decode] goes through
    [verify_api_key] and through the gate, which raises it as it is. *)
Theorem verify_api_token_invalid_key_escapes (lib : PyJWT) (w : World) (now : Q)
    (session : Session) (api_key : string) (e : exn) :
  api_key <> "" ->
  jwt_decode api_key (SECRET_KEY w) [ALGORITHM] now = Raise e ->
  verify_api_token w now session (Some api_key) = Raise e
  /\ forall status detail, e <> HTTPException status detail.
Proof.
  intros Hne Hd. split.
  - rewrite verify_api_token_cases. cbn [header_missing default from_option id].
    apply String.eqb_neq in Hne. now rewrite Hne, Hd.
  - apply jwt_decode_raises in Hd as [[k ->]|[m ->]]; discriminate.
Qed.

Lemma verify_api_token_invalid_key_escapes_witness :
  verify_api_token (lib := Reference.lib) sample_world 1742400060
    (database sample_world) (Some "not-a-jwt")
  = Raise (PyJWTError DecodeError)
  /\ forall status detail, PyJWTError DecodeError <> HTTPException status detail.
Proof.
  apply (verify_api_token_invalid_key_escapes Reference.lib sample_world 1742400060
           (database sample_world) "not-a-jwt" (PyJWTError DecodeError)).
  - discriminate.
  - reflexivity.
Defined.

(** ** Listing the keys of a user *)

Lemma digit_is_digit (n : Z) : is_digit (digit n) = true.
Proof.
  unfold digit. pose proof (Z.mod_pos_bound n 10 ltac:(lia)) as H.
  assert (Hk : (Z.to_nat (n mod 10) < 10)%nat) by lia.
  destruct (Z.to_nat (n mod 10)) as [|[|[|[|[|[|[|[|[|[|k]]]]]]]]]];
    try reflexivity; lia.
Qed.

Lemma isoformat_is_iso8601 (d : datetime) : is_iso8601 (isoformat d) = true.
Proof.
  unfold is_iso8601, isoformat, pad6, pad4, pad2.
  destruct (microsecond d =? 0);
    cbv [String.append shape_matches]; change (Ascii.eqb "d" "d") with true;
    cbv iota; rewrite !digit_is_digit; reflexivity.
Qed.

Lemma mapM_Return {A B} (f : A -> outcome B) (g : A -> B) (l : list A) :
  (forall x, f x = Return (g x)) -> mapM f l = Return (g <$> l).
Proof.
  intros Hf. induction l as [|x l IH]; [reflexivity|].
  cbn [mapM]. rewrite Hf, IH. reflexivity.
Qed.

(** C8, as amended.  For a subscribed user, the listing has one entry for
    each stored key of the user whose [is_active] is true, in order, and none
    for a key that is not active: the entry's preview is the key's preview,
    its [created_at] and [expires_at] are the ISO-8601 renderings of the
    key's, and its [is_active] is true. *)
Theorem list_user_api_keys_active (session : Session) (current_user : User.t) :
  User.has_subscription current_user = true ->
  exists entries,
    list_user_api_keys session current_user = Return entries
    /\ Forall2
         (fun token entry =>
            key_preview (APIToken.token token)
            = Return (APIKeyResponse.key_preview entry)
            /\ APIKeyResponse.created_at entry = isoformat (APIToken.created_at token)
            /\ APIKeyResponse.expires_at entry = isoformat (APIToken.expires_at token)
            /\ is_iso8601 (APIKeyResponse.created_at entry) = true
            /\ is_iso8601 (APIKeyResponse.expires_at entry) = true
            /\ APIKeyResponse.is_active entry = true)
         (filter (fun t => APIToken.user_id t = User.id current_user
                           /\ APIToken.is_active t = true)
                 (api_tokens session))
         entries.
Proof.
  intros Hsub. unfold list_user_api_keys. rewrite Hsub. cbn [negb].
  set (mine := filter _ (api_tokens session)).
  assert (Hmine : Forall (fun t => APIToken.is_active t = true) mine).
  { apply list.Forall_forall. intros t Ht. apply list_elem_of_filter in Ht. tauto. }
  eexists. split.
  - apply (mapM_Return _ (fun token =>
      {| APIKeyResponse.key_preview :=
           substring 0 (Nat.min 8 (String.length (APIToken.token token)))
                     (APIToken.token token)
           ++ "..."
           ++ substring (String.length (APIToken.token token)
                         - Nat.min 8 (String.length (APIToken.token token)))
                        (Nat.min 8 (String.length (APIToken.token token)))
                        (APIToken.token token);
         APIKeyResponse.created_at := isoformat (APIToken.created_at token);
         APIKeyResponse.expires_at := isoformat (APIToken.expires_at token);
         APIKeyResponse.is_active := APIToken.is_active token |})).
    intros token. now rewrite key_preview_eq.
  - apply Forall2_fmap_r, Forall_Forall2_diag.
    eapply list.Forall_impl; [exact Hmine|]. intros t Ht. cbn.
    rewrite key_preview_eq, !isoformat_is_iso8601. easy.
Qed.

Lemma list_user_api_keys_active_witness :
  exists entries,
    list_user_api_keys (database sample_world) sample_user = Return entries
    /\ Forall2
         (fun token entry =>
            key_preview (APIToken.token token)
            = Return (APIKeyResponse.key_preview entry)
            /\ APIKeyResponse.created_at entry = isoformat (APIToken.created_at token)
            /\ APIKeyResponse.expires_at entry = isoformat (APIToken.expires_at token)
            /\ is_iso8601 (APIKeyResponse.created_at entry) = true
            /\ is_iso8601 (APIKeyResponse.expires_at entry) = true
            /\ APIKeyResponse.is_active entry = true)
         (filter (fun t => APIToken.user_id t = User.id sample_user
                           /\ APIToken.is_active t = true)
                 (api_tokens (database sample_world)))
         entries.
Proof. apply (list_user_api_keys_active (database sample_world) sample_user). reflexivity. Defined.

(** The claim fails on a user whose one stored key is deactivated: the key
    is the user's and is persisted, and the listing is empty. *)
Lemma list_user_api_keys_skips_inactive :
  filter (fun t => APIToken.user_id t = User.id sample_user)
         (api_tokens (database sample_world_revoked))
  = [sample_token_row false]
  /\ list_user_api_keys (database sample_world_revoked) sample_user = Return [].
Proof. split; reflexivity. Qed.

Example list_user_api_keys_sample :
  list_user_api_keys (database sample_world) sample_user
  = Return [ {| APIKeyResponse.key_preview := "eyJhbGci...bmF0dXJl";
                APIKeyResponse.created_at := "2025-03-19T16:11:30.715497";
                APIKeyResponse.expires_at := "2026-03-19T16:11:30";
                APIKeyResponse.is_active := true |} ].
Proof. reflexivity. Qed.

(** ** The probes, the status and the forward at sample data *)

(** The floats of the sample runs are doubles. *)
Section Doubles.
#[local] Existing Instance Binary64.double.

Lemma proxy_fetch_selects_healthy_witness :
  exists results,
    result (gather (status_tasks sample_env_down
              ["https://asia-east1-proxy6-455014.cloudfunctions.net/main";
               "https://asia-northeast2-proxy6-455014.cloudfunctions.net/main"]
              "asia")) = Return results
    /\ result (proxy_fetch sample_env_down sample_session "asia"
                 {| url := "https://example.org/" |} sample_user)
       = Raise (HTTPException 503 "No healthy proxy endpoints available in asia")
    /\ posted (calls (proxy_fetch sample_env_down sample_session "asia"
                        {| url := "https://example.org/" |} sample_user)) = [].
Proof.
  destruct (proxy_fetch_selects_healthy sample_env_down sample_session "asia"
              {| url := "https://example.org/" |} sample_user _ eq_refl)
    as (results & Hg & _ & Hnone & _).
  exists results. split; [exact Hg|]. apply Hnone.
  rewrite gather_status_tasks in Hg. injection Hg as <-. reflexivity.
Defined.

Lemma check_proxy_health_total_witness :
  exists h,
    result (check_proxy_health (probe sample_env_down 0)
              "https://asia-east1-proxy6-455014.cloudfunctions.net/main" "asia")
    = Return h
    /\ (0 <= Health.response_time h)%Q
    /\ Health.is_healthy h = false.
Proof.
  destruct (check_proxy_health_total (probe sample_env_down 0)
              "https://asia-east1-proxy6-455014.cloudfunctions.net/main" "asia")
    as (h & Hres & _ & Hpos & _ & Hfail & _).
  exists h. split; [exact Hres|]. split.
  - apply Hpos. unfold Qle. cbn. lia.
  - apply (Hfail (HttpxError "ConnectTimeout")). reflexivity.
Defined.

(** C5 as it was stated fails when the wall clock is set back while a probe
    runs: the probe of an endpoint that answers records a negative response
    time. *)
Lemma check_proxy_health_negative_response_time :
  exists h,
    result (check_proxy_health (probe sample_env_clock_back 0)
              "https://asia-east1-proxy6-455014.cloudfunctions.net/main" "asia")
    = Return h
    /\ Health.is_healthy h = true
    /\ Health.response_time h = (-5)%Q
    /\ (Health.response_time h < 0)%Q.
Proof.
  exists {| Health.region := "asia"; Health.is_healthy := true;
            Health.response_time := (-5)%Q; Health.last_checked := sample_datetime |}.
  split; [vm_compute; reflexivity|]. repeat split.
Qed.

Lemma get_proxy_status_aggregates_witness :
  exists results status,
    result (gather (status_tasks sample_env_up
              ["https://asia-east1-proxy6-455014.cloudfunctions.net/main";
               "https://asia-northeast2-proxy6-455014.cloudfunctions.net/main"]
              "asia")) = Return results
    /\ result (get_proxy_status sample_env_up "asia" sample_user sample_session)
       = Return {| statuses := [status] |}
    /\ ProxyStatus.healthy_endpoints status + count_verdicts false results
       = ProxyStatus.total_endpoints status
    /\ (0 <= ProxyStatus.avg_response_time status)%Q.
Proof.
  destruct (get_proxy_status_aggregates sample_env_up "asia"
              ["https://asia-east1-proxy6-455014.cloudfunctions.net/main";
               "https://asia-northeast2-proxy6-455014.cloudfunctions.net/main"]
              sample_user sample_session eq_refl)
    as (results & status & Hg & Hs & _ & _ & _ & Hsum & _ & _ & Hpos & _).
  exists results, status. repeat split; try assumption.
  apply Hpos. intros i _. unfold Qle. cbn. lia.
Defined.

(** C6 as it was stated fails in two ways.  When the wall clock is set back
    while the probes run, the average response time is negative.  And the
    average of the doubles 0.1, 0.2 and 0.3 is a double, which their
    arithmetic mean is not: the sum and the quotient are rounded. *)
Lemma get_proxy_status_average_negative_or_rounded :
  (exists status,
     result (get_proxy_status sample_env_clock_back "asia" sample_user sample_session)
     = Return {| statuses := [status] |}
     /\ (ProxyStatus.avg_response_time status < 0)%Q)
  /\ (exists results status,
        result (gather (status_tasks sample_env_tenths
                  ["https://southamerica-west1-proxy1-454912.cloudfunctions.net/main";
                   "https://southamerica-east1-proxy3-455013.cloudfunctions.net/main";
                   "https://southamerica-west1-proxy3-455013.cloudfunctions.net/main"]
                  "southamerica")) = Return results
        /\ result (get_proxy_status sample_env_tenths "southamerica" sample_user
                     sample_session)
           = Return {| statuses := [status] |}
        /\ Qeq_bool (ProxyStatus.avg_response_time status)
                    (arithmetic_mean (Health.response_time <$> results)) = false).
Proof.
  split.
  - match goal with
    | |- exists st, ?r = _ /\ _ =>
        let v := eval vm_compute in r in
        match v with Return {| statuses := [?st] |} => exists st end
    end.
    split; vm_compute; reflexivity.
  - match goal with
    | |- exists rs st, ?g = _ /\ ?r = _ /\ _ =>
        let vg := eval vm_compute in g in
        let vr := eval vm_compute in r in
        match vg with Return ?rs =>
          match vr with Return {| statuses := [?st] |} => exists rs, st end
        end
    end.
    repeat split; vm_compute; reflexivity.
Qed.

Lemma proxy_fetch_region_used_witness :
  ProxyResponse.region_used
    {| ProxyResponse.result := "<html></html>";
       ProxyResponse.public_ip := "203.0.113.7";
       ProxyResponse.device_id := "proxy6";
       ProxyResponse.region_used := "asia" |} = "asia".
Proof.
  apply (proxy_fetch_region_used sample_env_up sample_session "asia"
           {| url := "https://example.org/" |} sample_user).
  reflexivity.
Defined.

Example get_proxy_status_sample :
  result (get_proxy_status sample_env_up "asia" sample_user sample_session)
  = Return {| statuses := [
      {| ProxyStatus.region := "asia";
         ProxyStatus.is_healthy := true;
         ProxyStatus.avg_response_time := (1 # 4)%Q;
         ProxyStatus.healthy_endpoints := 2;
         ProxyStatus.total_endpoints := 2;
         ProxyStatus.last_checked := sample_datetime |} ] |}.
Proof. vm_compute. reflexivity. Qed.

Example proxy_fetch_sample_calls :
  calls (proxy_fetch sample_env_up sample_session "asia"
           {| url := "https://example.org/" |} sample_user)
  = [ HttpGet "https://asia-east1-proxy6-455014.cloudfunctions.net/main/health";
      HttpGet "https://asia-northeast2-proxy6-455014.cloudfunctions.net/main/health";
      HttpPost "https://asia-northeast2-proxy6-455014.cloudfunctions.net/main/fetch"
               {[ "url" := PStr "https://example.org/" ]} ].
Proof. reflexivity. Qed.

Example proxy_fetch_unknown_region :
  result (proxy_fetch sample_env_up sample_session "antarctica"
            {| url := "https://example.org/" |} sample_user)
  = Raise (HTTPException 400
      "Invalid region. Available regions: ['northamerica-northeast', 'southamerica', 'us-central', 'us-east', 'asia', 'us-west', 'europe', 'middle-east', 'australia']").
Proof. reflexivity. Qed.

End Doubles.

(** A forward that fails hands the message of the exception to the caller:
    the detail of the 500 carries it. *)
Example forward_failure_carries_message :
  result (forward sample_env_down
            "https://asia-east1-proxy6-455014.cloudfunctions.net/main" "asia"
            {| url := "https://example.org/" |})
  = Raise (HTTPException 500 "Proxy request failed in asia: ConnectTimeout")
  /\ result (forward
               {| probe := probe sample_env_up;
                  post_reply := fun _ _ =>
                    Replied {| status_code := 502; body := None;
                               error_text := "Server error '502 Bad Gateway'" |};
                  random_draw := 0; utcnow := sample_datetime |}
               "https://asia-east1-proxy6-455014.cloudfunctions.net/main" "asia"
               {| url := "https://example.org/" |})
     = Raise (HTTPException 500
         "Proxy request failed in asia: Server error '502 Bad Gateway'").
Proof. split; reflexivity. Qed.

(* ===================================================================== *)
(** * Further properties of the code *)
(* ===================================================================== *)

(** ** Keys, secrets and algorithms *)

Section DecodeFacts.
Context {lib : PyJWT}.

Lemma jwt_decode_encoded (Hrt : jws_round_trip lib) (payload : pydict)
    (key key' a : string) (algorithms : list string) (now : Q) :
  jwt_decode (jwt_encode payload key a) key' algorithms now
  = if negb (bool_decide (a ∈ algorithms))
    then Raise (PyJWTError InvalidAlgorithmError)
    else if negb (String.eqb
                    (jws_sign a key (jws_signing_input {| alg := Some a; typ := Some "JWT" |} payload))
                    (jws_sign a key' (jws_signing_input {| alg := Some a; typ := Some "JWT" |} payload)))
    then Raise (PyJWTError InvalidSignatureError)
    else _ ← validate_claims payload now; Return payload.
Proof. unfold jwt_decode, jwt_encode. now rewrite Hrt. Qed.

Lemma validate_issued_claims (t_iat t_exp now : Q) (user_id : string) :
  (0 <= t_iat)%Q -> (0 <= t_exp)%Q ->
  validate_claims (issued_claims t_iat t_exp user_id) now
  = if Qle_bool (inject_Z (Qfloor t_iat)) now
    then if Qle_bool (inject_Z (Qfloor (t_exp + DAYS_365))) now
         then Raise (PyJWTError ExpiredSignatureError)
         else Return tt
    else Raise (PyJWTError ImmatureSignatureError).
Proof.
  intros Hiat Hexp.
  assert (Hyear : (0 <= DAYS_365)%Q) by (unfold DAYS_365, Qle; cbn; lia).
  destruct (generated_payload_lookups user_id t_iat t_exp) as (_ & Hi & Hn & He & Ha).
  unfold validate_claims, claim_int, issued_claims. rewrite Hi, Hn, He, Ha.
  rewrite !py_int_floor by lra.
  unfold mbind, outcome_bind.
  destruct (Qle_bool (inject_Z (Qfloor t_iat)) now); [|reflexivity].
  destruct (Qle_bool (inject_Z (Qfloor (t_exp + DAYS_365))) now); reflexivity.
Qed.

End DecodeFacts.

(** X1.  A key signed under another secret is rejected, whatever the time:
    when the MAC tells the two secrets apart, verification under the one of
    a key issued under the other raises [InvalidSignatureError]. *)
Theorem key_of_another_secret_rejected (lib : PyJWT) (w_issuer w_verifier : World)
    (t_iat t_exp now : Q) (user_id : string) :
  jws_round_trip lib ->
  mac_separates lib (SECRET_KEY w_issuer) (SECRET_KEY w_verifier) ->
  verify_api_key w_verifier now (generate_api_key w_issuer t_iat t_exp user_id)
  = Raise (PyJWTError InvalidSignatureError).
Proof.
  intros Hrt Hmac. rewrite verify_api_key_eq. unfold generate_api_key.
  rewrite jwt_decode_encoded by assumption.
  rewrite bool_decide_true by (apply list_elem_of_singleton; reflexivity).
  cbn [negb]. destruct (String.eqb_spec
    (jws_sign ALGORITHM (SECRET_KEY w_issuer)
       (jws_signing_input {| alg := Some ALGORITHM; typ := Some "JWT" |}
          (<["user_id":=PStr user_id]> (<["iat":=PNum t_iat]>
             (<["exp":=PNum (t_exp + DAYS_365)%Q]> ∅)))))
    (jws_sign ALGORITHM (SECRET_KEY w_verifier)
       (jws_signing_input {| alg := Some ALGORITHM; typ := Some "JWT" |}
          (<["user_id":=PStr user_id]> (<["iat":=PNum t_iat]>
             (<["exp":=PNum (t_exp + DAYS_365)%Q]> ∅)))))) as [E|_].
  - now apply Hmac in E.
  - reflexivity.
Qed.

(** X2.  The algorithm is pinned: a token that names another algorithm in
    its header is rejected with [InvalidAlgorithmError], even when it is
    signed with the right secret and carries valid claims. *)
Theorem other_algorithm_rejected (lib : PyJWT) (w : World) (now : Q)
    (payload : pydict) (algorithm : string) :
  jws_round_trip lib ->
  algorithm <> ALGORITHM ->
  verify_api_key w now (jwt_encode payload (SECRET_KEY w) algorithm)
  = Raise (PyJWTError InvalidAlgorithmError).
Proof.
  intros Hrt Hne. rewrite verify_api_key_eq, jwt_decode_encoded by assumption.
  rewrite bool_decide_false; [reflexivity|].
  intros H%list_elem_of_singleton. contradiction.
Qed.

(** X3.  The exact window of a key: with clock readings after the epoch,
    verification returns a payload exactly from the whole second of [iat]
    up to, and not including, the whole second of [exp]; the payload is the
    one that was signed. *)
Theorem verify_api_key_window (lib : PyJWT) (w : World) (t_iat t_exp now : Q)
    (user_id : string) (payload : pydict) :
  jws_round_trip lib ->
  (0 <= t_iat)%Q -> (0 <= t_exp)%Q ->
  verify_api_key w now (generate_api_key w t_iat t_exp user_id) = Return (Some payload)
  <-> (inject_Z (Qfloor t_iat) <= now)%Q
      /\ (now < inject_Z (Qfloor (t_exp + DAYS_365)))%Q
      /\ payload = issued_claims t_iat t_exp user_id.
Proof.
  intros Hrt Hiat Hexp. rewrite verify_api_key_eq. unfold generate_api_key.
  rewrite jwt_decode_encoded by assumption.
  rewrite bool_decide_true by (apply list_elem_of_singleton; reflexivity).
  cbn [negb]. rewrite String.eqb_refl. cbn [negb].
  fold (issued_claims t_iat t_exp user_id).
  rewrite validate_issued_claims by assumption.
  unfold mbind, outcome_bind.
  destruct (Qle_bool (inject_Z (Qfloor t_iat)) now) eqn:E1.
  - destruct (Qle_bool (inject_Z (Qfloor (t_exp + DAYS_365))) now) eqn:E2.
    + rewrite Qle_bool_iff in E1, E2. split; [discriminate|].
      intros (_ & H & _). lra.
    + rewrite Qle_bool_iff in E1. apply not_true_iff_false in E2.
      rewrite Qle_bool_iff in E2. split.
      * intros [= <-]. repeat split; [assumption | lra].
      * intros (_ & _ & ->). reflexivity.
  - apply not_true_iff_false in E1. rewrite Qle_bool_iff in E1.
    split; [discriminate|]. intros (H & _). contradiction.
Qed.

(** ** More on the Authorization Gate *)

Lemma py_int_inject_Z (n : Z) : py_int (PNum (inject_Z n)) = Some n.
Proof. cbn. f_equal. apply Z.quot_1_r. Qed.

(** X4.  A login token is no API key: a token of [create_access_token],
    signed with the same secret and algorithm, that has not expired is
    refused by the gate with 401, since its payload names no [user_id]. *)
Theorem access_token_is_no_api_key (lib : PyJWT) (w : World) (t_now expires_delta now : Q)
    (subject : string) (session : Session) :
  jws_round_trip lib ->
  (now < inject_Z (Qfloor (t_now + expires_delta)))%Q ->
  exists detail,
    verify_api_token w now session
      (Some (create_access_token w t_now subject expires_delta))
    = Raise (HTTPException 401 detail).
Proof.
  intros Hrt Hnow. rewrite verify_api_token_cases. cbn [header_missing default from_option id].
  destruct (String.eqb _ ""); [eauto|].
  unfold create_access_token. rewrite jwt_decode_encoded by assumption.
  rewrite bool_decide_true by (apply list_elem_of_singleton; reflexivity).
  cbn [negb]. rewrite String.eqb_refl. cbn [negb].
  set (payload := <["exp" := _]> _).
  assert (Hi : payload !! "iat" = None) by (subst payload; by simplify_map_eq).
  assert (Hn : payload !! "nbf" = None) by (subst payload; by simplify_map_eq).
  assert (He : payload !! "exp" = Some (PNum (inject_Z (Qfloor (t_now + expires_delta)))))
    by (subst payload; by simplify_map_eq).
  assert (Ha : payload !! "aud" = None) by (subst payload; by simplify_map_eq).
  assert (Hu : payload !! "user_id" = None) by (subst payload; by simplify_map_eq).
  assert (Hs : payload !! "sub" = Some (PStr subject))
    by (subst payload; by simplify_map_eq).
  assert (Hj : payload !! "jti" = None) by (subst payload; by simplify_map_eq).
  unfold validate_claims, claim_int, claim_str. rewrite Hi, Hn, He, Ha, Hs, Hj.
  rewrite py_int_inject_Z. unfold mbind, outcome_bind.
  destruct (Qle_bool _ now) eqn:E; [rewrite Qle_bool_iff in E; lra|].
  unfold payload_unusable. rewrite Hu.
  rewrite (bool_decide_true (None = None)) by done.
  rewrite orb_true_r. eauto.
Qed.

(** X5.  The gate lets nobody in but an active, subscribed user of the
    session, and the failures of its own making are 401 and 403: whatever
    the header, it returns such a user, or raises 401 or 403, or raises,
    as it is, the exception that [jwt.decode] raised on the key (whichever
    that is). *)
Theorem verify_api_token_outcomes (lib : PyJWT) (w : World) (now : Q)
    (session : Session) (x_api_key : option string) :
  (exists u, verify_api_token w now session x_api_key = Return u
             /\ In u (users session)
             /\ User.is_active u = true /\ User.has_subscription u = true)
  \/ (exists detail, verify_api_token w now session x_api_key
                     = Raise (HTTPException 401 detail))
  \/ verify_api_token w now session x_api_key
     = Raise (HTTPException 403 "Active subscription required")
  \/ (exists api_key e,
        x_api_key = Some api_key
        /\ jwt_decode api_key (SECRET_KEY w) [ALGORITHM] now = Raise e
        /\ verify_api_token w now session x_api_key = Raise e).
Proof.
  rewrite verify_api_token_cases.
  destruct x_api_key as [api_key|]; cbn [header_missing default from_option id];
    [|eauto].
  destruct (String.eqb api_key ""); [eauto|].
  destruct (jwt_decode api_key (SECRET_KEY w) [ALGORITHM] now) as [payload|e] eqn:Hd.
  2:{ right. right. right. exists api_key, e. repeat split; assumption || reflexivity. }
  destruct (payload_unusable (Some payload)); [eauto|].
  destruct (read_user_by_id session _) as [u|] eqn:Hu; [|eauto].
  destruct (User.is_active u) eqn:Ha; cbn [negb]; [|eauto].
  destruct (User.has_subscription u) eqn:Hs; cbn [negb]; [|eauto].
  left. exists u. repeat split; try assumption.
  unfold read_user_by_id in Hu. now apply find_some in Hu.
Qed.

(** X6.  A key speaks for the user it was issued for and for no other: a
    user that the gate returns on a key of [generate_api_key] has the
    [user_id] the key was issued for. *)
Theorem key_names_its_user (lib : PyJWT) (w : World) (t_iat t_exp now : Q)
    (user_id : string) (session : Session) (u : User.t) :
  jws_round_trip lib ->
  verify_api_token w now session (Some (generate_api_key w t_iat t_exp user_id))
  = Return u ->
  User.id u = user_id.
Proof.
  intros Hrt H. apply verify_api_token_returns in H
    as (k & payload & uid & [= <-] & _ & Hd & Huid & Hu & _).
  unfold generate_api_key in Hd. rewrite jwt_decode_encoded in Hd by assumption.
  rewrite bool_decide_true in Hd by (apply list_elem_of_singleton; reflexivity).
  cbn [negb] in Hd. rewrite String.eqb_refl in Hd. cbn [negb] in Hd.
  unfold mbind, outcome_bind in Hd.
  destruct (validate_claims _ now); [|discriminate].
  injection Hd as <-.
  rewrite lookup_insert_eq in Huid. injection Huid as <-.
  unfold read_user_by_id in Hu. apply find_some in Hu as [_ Hu].
  apply bool_decide_eq_true in Hu. now injection Hu.
Qed.

(** ** Issuing a key, then using it *)

Section IssueFacts.
Context {lib : PyJWT}.

Lemma generate_user_api_key_issued (w : World) (clk : issue_clock) (session : Session)
    (u : User.t) (k : string) (session' : Session) :
  generate_user_api_key w clk session u = Issued k session' ->
  User.has_subscription u = true
  /\ k = generate_api_key w (ic_iat clk) (ic_exp clk) (User.id u)
  /\ users session' = users session
  /\ exists expires,
       datetime_add_days (ic_expires_from clk) 365 = Some expires
       /\ api_tokens session'
          = (api_tokens session
             ++ [ {| APIToken.user_id := User.id u; APIToken.token := k;
                     APIToken.created_at := ic_created clk;
                     APIToken.expires_at := expires;
                     APIToken.is_active := true |} ])%list.
Proof.
  unfold generate_user_api_key.
  destruct (User.has_subscription u); cbn [negb]; [|discriminate].
  destruct (datetime_add_days _ 365) as [expires|]; [|discriminate].
  intros [= <- <-]. cbn. eauto 6.
Qed.

Lemma list_user_api_keys_eq (session : Session) (u : User.t) :
  User.has_subscription u = true ->
  list_user_api_keys session u
  = Return (api_key_entry
            <$> filter (fun t => APIToken.user_id t = User.id u
                                 /\ APIToken.is_active t = true)
                       (api_tokens session)).
Proof.
  intros Hs. unfold list_user_api_keys. rewrite Hs. cbn [negb].
  now apply mapM_Return.
Qed.

End IssueFacts.

(** X7.  A key that [generate_user_api_key] returned passes the gate as its
    user, within its window, in every session with the same users: with the
    row as stored, with the row deactivated, or without it.  The user must
    be the stored one and active, and the key not the empty string. *)
Theorem issued_key_passes_gate (lib : PyJWT) (w : World) (clk : issue_clock)
    (session session' later : Session) (u : User.t) (k : string) (now : Q) :
  jws_round_trip lib ->
  generate_user_api_key w clk session u = Issued k session' ->
  k <> "" ->
  read_user_by_id session (PStr (User.id u)) = Some u ->
  User.is_active u = true ->
  (0 <= ic_iat clk)%Q -> (0 <= ic_exp clk)%Q ->
  (inject_Z (Qfloor (ic_iat clk)) <= now)%Q ->
  (now < inject_Z (Qfloor (ic_exp clk + DAYS_365)))%Q ->
  users later = users session ->
  verify_api_token w now later (Some k) = Return u.
Proof.
  intros Hrt Hissue Hk Hu Ha Hiat Hexp Hfrom Hto Hsame.
  apply generate_user_api_key_issued in Hissue as (Hs & -> & _ & _).
  apply verify_api_token_returns.
  exists (generate_api_key w (ic_iat clk) (ic_exp clk) (User.id u)),
    (issued_claims (ic_iat clk) (ic_exp clk) (User.id u)), (PStr (User.id u)).
  split; [reflexivity|]. split; [assumption|]. split; [|split; [|split; [|now split]]].
  - unfold issued_claims. rewrite jwt_decode_generated by assumption.
    fold (issued_claims (ic_iat clk) (ic_exp clk) (User.id u)).
    rewrite validate_issued_claims by assumption.
    destruct (Qle_bool (inject_Z (Qfloor (ic_iat clk))) now) eqn:E1.
    2:{ apply not_true_iff_false in E1. rewrite Qle_bool_iff in E1. contradiction. }
    destruct (Qle_bool (inject_Z (Qfloor (ic_exp clk + DAYS_365))) now) eqn:E2.
    1:{ rewrite Qle_bool_iff in E2. lra. }
    reflexivity.
  - unfold issued_claims. apply lookup_insert_eq.
  - unfold read_user_by_id in *. now rewrite Hsame.
Qed.

(** X8.  After a key is issued, the listing of its user is the listing
    from before and one more entry, which shows the preview of the returned
    key and is active. *)
Theorem issued_key_is_listed (lib : PyJWT) (w : World) (clk : issue_clock)
    (session session' : Session) (u : User.t) (k : string)
    (entries : list APIKeyResponse.t) :
  generate_user_api_key w clk session u = Issued k session' ->
  list_user_api_keys session u = Return entries ->
  exists entry,
    list_user_api_keys session' u = Return (entries ++ [entry])%list
    /\ key_preview k = Return (APIKeyResponse.key_preview entry)
    /\ APIKeyResponse.created_at entry = isoformat (ic_created clk)
    /\ APIKeyResponse.is_active entry = true.
Proof.
  intros Hissue Hlist.
  apply generate_user_api_key_issued in Hissue as (Hs & Hk & _ & expires & _ & Htok).
  rewrite list_user_api_keys_eq in * by assumption. injection Hlist as <-.
  rewrite Htok, list.filter_app, fmap_app.
  rewrite filter_cons, decide_True by (cbn; split; reflexivity).
  rewrite filter_nil. cbn [fmap list_fmap].
  eexists. split; [reflexivity|]. cbn. repeat split; reflexivity.
Qed.

(** X9.  Issuing a key for one user changes no other user's listing. *)
Theorem issuing_leaves_other_listings (lib : PyJWT) (w : World) (clk : issue_clock)
    (session session' : Session) (u other : User.t) (k : string) :
  generate_user_api_key w clk session u = Issued k session' ->
  User.id other <> User.id u ->
  list_user_api_keys session' other = list_user_api_keys session other.
Proof.
  intros Hissue Hne.
  apply generate_user_api_key_issued in Hissue as (_ & _ & _ & expires & _ & Htok).
  unfold list_user_api_keys. destruct (User.has_subscription other); cbn [negb];
    [|reflexivity].
  rewrite Htok, list.filter_app, filter_cons, decide_False
    by (cbn; intros [E _]; now apply Hne).
  rewrite filter_nil, app_nil_r. reflexivity.
Qed.

Section RouteFacts.
Context {F : PyFloat}.

(** X10.  The protected routes touch the network for an authorised caller
    only: a route that made any call ran for a user that the gate returned;
    and when the gate raises, the route raises the same and has made no
    call, whatever the region asked for. *)
Theorem protected_routes_call_after_gate (lib : PyJWT) (w : World) (now : Q)
    (session : Session) (x_api_key : option string) (env : Environment)
    (region : string) (request : ProxyRequest) :
  ((calls (status_route w now session x_api_key env region) <> []
    \/ calls (fetch_route w now session x_api_key env region request) <> []) ->
   exists u, verify_api_token w now session x_api_key = Return u
             /\ User.is_active u = true /\ User.has_subscription u = true)
  /\ (forall e, verify_api_token w now session x_api_key = Raise e ->
        status_route w now session x_api_key env region = IO [] (Raise e)
        /\ fetch_route w now session x_api_key env region request = IO [] (Raise e)).
Proof.
  unfold status_route, fetch_route, lift, mbind, io_bind. cbn [result calls].
  destruct (verify_api_token w now session x_api_key) as [u|e] eqn:Hgate.
  - split; [|discriminate]. intros _. exists u. split; [reflexivity|].
    apply verify_api_token_returns in Hgate as (? & ? & ? & _ & _ & _ & _ & _ & Ha & Hs).
    now split.
  - split; [intros [H|H]; now contradiction H|].
    intros e' [= <-]. split; reflexivity.
Qed.

(** ** What the probes and the forward do to the network *)

Lemma requested_app (l k : list event) :
  requested (l ++ k)%list = (requested l ++ requested k)%list.
Proof. apply omap_app. Qed.

Lemma check_proxy_health_calls (run : probe_run) (endpoint region : string) :
  calls (check_proxy_health run endpoint region)
  = (HttpGet (endpoint ++ "/health")
     :: match pr_reply run (endpoint ++ "/health") with
        | Replied r =>
            if (200 <=? status_code r) && (status_code r <=? 299) then []
            else [LogError ("Health check failed for " ++ endpoint ++ " in " ++ region
                            ++ ": " ++ error_text r)]
        | Failed e =>
            [LogError ("Health check failed for " ++ endpoint ++ " in " ++ region
                       ++ ": " ++ exn_str e)]
        end)%list.
Proof.
  unfold check_proxy_health, io_try_except_Exception, http_get,
    raise_for_status, lift, logger_error, mbind, io_bind, mret, io_ret.
  simpl. destruct (pr_reply run (endpoint ++ "/health")) as [r|e]; simpl.
  - destruct ((200 <=? status_code r) && (status_code r <=? 299)); reflexivity.
  - reflexivity.
Qed.

(** X11.  One probe is one GET of the endpoint's [/health], no POST, and
    one log entry exactly when the verdict is unhealthy; the entry names the
    endpoint and the region. *)
Theorem check_proxy_health_one_request (run : probe_run) (endpoint region : string) :
  requested (calls (check_proxy_health run endpoint region)) = [endpoint ++ "/health"]
  /\ posted (calls (check_proxy_health run endpoint region)) = []
  /\ (probe_ok run endpoint = true ->
      logged (calls (check_proxy_health run endpoint region)) = [])
  /\ (probe_ok run endpoint = false ->
      exists cause,
        logged (calls (check_proxy_health run endpoint region))
        = ["Health check failed for " ++ endpoint ++ " in " ++ region ++ ": " ++ cause]).
Proof.
  rewrite check_proxy_health_calls. unfold probe_ok.
  destruct (pr_reply run (endpoint ++ "/health")) as [r|e].
  - destruct ((200 <=? status_code r) && (status_code r <=? 299));
      repeat split; try reflexivity; try discriminate; intros _; eexists; reflexivity.
  - repeat split; try reflexivity; try discriminate. intros _. eexists. reflexivity.
Qed.

Lemma requested_concat_imap {A B} (f : nat -> A -> io B) (g : A -> string) (l : list A) :
  (forall i x, requested (calls (f i x)) = [g x]) ->
  requested (concat (calls <$> imap f l)) = g <$> l.
Proof.
  revert f. induction l as [|x l IH]; intros f Hf; [reflexivity|].
  cbn [imap fmap list_fmap concat]. rewrite requested_app, Hf. cbn.
  f_equal. apply (IH (f ∘ S)). intros; apply Hf.
Qed.

Lemma gather_status_tasks_requested (env : Environment) (endpoints : list string)
    (region : string) :
  requested (calls (gather (status_tasks env endpoints region)))
  = (fun e => e ++ "/health") <$> endpoints.
Proof.
  unfold gather, status_tasks. cbn [calls].
  apply requested_concat_imap. intros i x.
  rewrite check_proxy_health_calls. cbn.
  destruct (pr_reply _ _) as [r|e]; [|reflexivity].
  destruct ((200 <=? status_code r) && (status_code r <=? 299)); reflexivity.
Qed.

(** X12.  [get_proxy_status] answers for every region of the registry,
    whatever the network does: it returns one status, for that region,
    after one GET of [/health] per endpoint, in the order of the registry,
    and no POST.  For any other region it raises 400 and calls nothing. *)
Theorem get_proxy_status_probes_each_endpoint (env : Environment) (region : string)
    (user : User.t) (session : Session) :
  match dict_get REGION_ENDPOINTS region with
  | Some endpoints =>
      (exists status,
         result (get_proxy_status env region user session)
         = Return {| statuses := [status] |}
         /\ ProxyStatus.region status = region
         /\ ProxyStatus.total_endpoints status = Z.of_nat (length endpoints))
      /\ requested (calls (get_proxy_status env region user session))
         = (fun e => e ++ "/health") <$> endpoints
      /\ posted (calls (get_proxy_status env region user session)) = []
  | None =>
      get_proxy_status env region user session = IO [] (Raise invalid_region)
  end.
Proof.
  unfold get_proxy_status.
  destruct (dict_get REGION_ENDPOINTS region) as [endpoints|]; [|reflexivity].
  unfold mbind, io_bind. rewrite gather_status_tasks. cbn [result calls mret io_ret].
  rewrite !app_nil_r. split; [|split].
  - eexists. split; [reflexivity|]. split; reflexivity.
  - apply gather_status_tasks_requested.
  - apply gather_status_tasks_posted.
Qed.

(** [forward], one case per outcome of the upstream answer. *)
Lemma forward_eq (env : Environment) (selected_endpoint region : string)
    (request : ProxyRequest) :
  forward env selected_endpoint region request
  = match upstream_answer
            (post_reply env (selected_endpoint ++ "/fetch")
               {[ "url" := PStr (url request) ]}) with
    | Return (r, ip, dev) =>
        IO [HttpPost (selected_endpoint ++ "/fetch") {[ "url" := PStr (url request) ]}]
           (Return {| ProxyResponse.result := r;
                      ProxyResponse.public_ip := ip;
                      ProxyResponse.device_id := dev;
                      ProxyResponse.region_used := region |})
    | Raise e =>
        IO [HttpPost (selected_endpoint ++ "/fetch") {[ "url" := PStr (url request) ]};
            LogError ("Proxy fetch failed in " ++ region ++ ": " ++ exn_str e)]
           (Raise (HTTPException 500
                     ("Proxy request failed in " ++ region ++ ": " ++ exn_str e)))
    end.
Proof.
  unfold upstream_answer. run_forward. unfold outcome_bind.
  destruct (post_reply env _ _) as [rsp|e]; cbn [result calls]; [|reflexivity].
  destruct ((200 <=? status_code rsp) && (status_code rsp <=? 299));
    cbn [result calls]; [|reflexivity].
  destruct (body rsp) as [[d|v]|]; cbn [result calls]; try reflexivity.
  destruct (d !! "result") as [[]|]; cbn [result calls]; try reflexivity.
  all: destruct (d !! "public_ip") as [[]|]; cbn [result calls]; try reflexivity.
  all: destruct (d !! "device_id") as [[]|]; cbn [result calls]; reflexivity.
Qed.

(** X13.  A forward is one POST of [{"url": request.url}] to the selected
    endpoint's [/fetch], never repeated; it returns exactly when the answer
    is a 2xx response whose body is an object with strings under [result],
    [public_ip] and [device_id]; every other answer (an exception of the
    request, another status, a body that is no JSON object, a field missing
    or not a string) ends in 500 and one log entry. *)
Theorem forward_one_attempt (env : Environment) (selected_endpoint region : string)
    (request : ProxyRequest) :
  (exists logs,
     calls (forward env selected_endpoint region request)
     = (HttpPost (selected_endpoint ++ "/fetch") {[ "url" := PStr (url request) ]}
        :: logs)%list
     /\ posted logs = [] /\ requested logs = []
     /\ (length (logged logs) = 1%nat
         <-> exists e, result (forward env selected_endpoint region request) = Raise e))
  /\ (forall resp,
        result (forward env selected_endpoint region request) = Return resp
        <-> exists rsp d,
              post_reply env (selected_endpoint ++ "/fetch")
                {[ "url" := PStr (url request) ]} = Replied rsp
              /\ 200 <= status_code rsp <= 299
              /\ body rsp = Some (JObject d)
              /\ d !! "result" = Some (PStr (ProxyResponse.result resp))
              /\ d !! "public_ip" = Some (PStr (ProxyResponse.public_ip resp))
              /\ d !! "device_id" = Some (PStr (ProxyResponse.device_id resp))
              /\ ProxyResponse.region_used resp = region)
  /\ (forall e,
        result (forward env selected_endpoint region request) = Raise e ->
        exists cause,
          e = HTTPException 500 ("Proxy request failed in " ++ region ++ ": " ++ cause)).
Proof.
  split; [|split].
  - rewrite forward_eq. destruct (upstream_answer _) as [[[r ip] dev]|e].
    + exists []. cbn. repeat split; try reflexivity; [discriminate|].
      intros [e [=]].
    + eexists. split; [reflexivity|]. cbn. repeat split; eauto.
  - intros resp. split; [apply forward_success|].
    intros (rsp & d & Hpost & Hst & Hbody & H1 & H2 & H3 & Hr).
    rewrite forward_eq, Hpost. unfold upstream_answer, reply_outcome, raise_for_status,
      response_json, subscript, validate_str, mbind, outcome_bind.
    assert (Hok : (200 <=? status_code rsp) && (status_code rsp <=? 299) = true)
      by (apply andb_true_iff; rewrite !Z.leb_le; lia).
    rewrite Hok, Hbody, H1, H2, H3. cbn [result]. destruct resp. cbn in *. now subst.
  - intros e. rewrite forward_eq. destruct (upstream_answer _) as [[[r ip] dev]|e'];
      cbn [result]; [discriminate|]. intros [= <-]. eauto.
Qed.

Lemma healthy_subset_length (endpoints : list string) (results : list Health.t) :
  length endpoints = length results ->
  length (healthy_subset endpoints results)
  = length (filter (fun r => Health.is_healthy r = true) results).
Proof.
  unfold healthy_subset. rewrite length_fmap. revert results.
  induction endpoints as [|e l IH]; intros [|r rs] Hlen; try discriminate; [reflexivity|].
  cbn [zip_with]. rewrite !filter_cons. cbn [snd].
  destruct (Health.is_healthy r).
  - rewrite !decide_True by reflexivity. cbn [length]. f_equal. apply IH. now injection Hlen.
  - rewrite !decide_False by discriminate. apply IH. now injection Hlen.
Qed.

(** [proxy_fetch] for a region of the registry, given the verdicts. *)
Lemma proxy_fetch_known (env : Environment) (session : Session) (region : string)
    (request : ProxyRequest) (user : User.t) (endpoints : list string) :
  dict_get REGION_ENDPOINTS region = Some endpoints ->
  exists results,
    result (gather (status_tasks env endpoints region)) = Return results
    /\ length results = length endpoints
    /\ requested (calls (select_endpoint env endpoints region))
       = (fun e => e ++ "/health") <$> endpoints
    /\ ((healthy_subset endpoints results = []
         /\ proxy_fetch env session region request user
            = IO (calls (select_endpoint env endpoints region))
                 (Raise (HTTPException 503
                           ("No healthy proxy endpoints available in " ++ region))))
        \/ (exists selected,
              selected ∈ healthy_subset endpoints results
              /\ proxy_fetch env session region request user
                 = IO (calls (select_endpoint env endpoints region)
                       ++ calls (forward env selected region request))
                      (result (forward env selected region request)))).
Proof.
  intros Hreg. eexists. split; [apply gather_status_tasks|].
  set (results := imap _ endpoints).
  assert (Hlen : length results = length endpoints) by apply length_imap.
  split; [exact Hlen|].
  destruct (select_endpoint_result env endpoints region results
              (gather_status_tasks env endpoints region)) as [Hsel _].
  split.
  { unfold select_endpoint, mbind, io_bind.
    rewrite gather_status_tasks. fold results. cbn [lift result calls].
    rewrite healthy_from_spec by (rewrite drop_0; lia).
    cbn [result calls]. destruct (healthy_subset _ _); cbn [calls];
      rewrite !app_nil_r; apply gather_status_tasks_requested. }
  unfold proxy_fetch. rewrite Hreg. unfold mbind, io_bind. rewrite Hsel.
  destruct (healthy_subset endpoints results) as [|h t] eqn:Hh.
  - left. split; reflexivity.
  - right.
    destruct (random_choice_nonempty (random_draw env) (h :: t)) as [selected Hc];
      [discriminate|].
    exists selected. rewrite Hc. split; [eapply random_choice_elem, Hc | reflexivity].
Qed.

Lemma forward_success_or_500 (env : Environment) (selected_endpoint region : string)
    (request : ProxyRequest) :
  (exists resp, result (forward env selected_endpoint region request) = Return resp)
  \/ (exists cause,
        result (forward env selected_endpoint region request)
        = Raise (HTTPException 500
                   ("Proxy request failed in " ++ region ++ ": " ++ cause))).
Proof.
  rewrite forward_eq. destruct (upstream_answer _) as [[[r ip] dev]|e];
    cbn [result]; eauto.
Qed.

(** X14.  [proxy_fetch] fails in three ways only, each as an
    [HTTPException]: 400 exactly for a region that is not in the registry,
    503 when no endpoint of the region is healthy, 500 when the forward
    failed.  And for a region of the registry it probes every endpoint of
    the region again, once, before anything else. *)
Theorem proxy_fetch_failures (env : Environment) (session : Session) (region : string)
    (request : ProxyRequest) (user : User.t) :
  (forall e, result (proxy_fetch env session region request user) = Raise e ->
     (e = invalid_region /\ dict_get REGION_ENDPOINTS region = None)
     \/ e = HTTPException 503 ("No healthy proxy endpoints available in " ++ region)
     \/ exists cause,
          e = HTTPException 500 ("Proxy request failed in " ++ region ++ ": " ++ cause))
  /\ (dict_get REGION_ENDPOINTS region = None ->
      proxy_fetch env session region request user = IO [] (Raise invalid_region))
  /\ (forall endpoints, dict_get REGION_ENDPOINTS region = Some endpoints ->
      exists rest,
        requested (calls (proxy_fetch env session region request user))
        = (fun e => e ++ "/health") <$> endpoints
        /\ calls (proxy_fetch env session region request user)
           = (calls (gather (status_tasks env endpoints region)) ++ rest)%list
        /\ requested rest = []).
Proof.
  split; [|split].
  - intros e He. destruct (dict_get REGION_ENDPOINTS region) as [endpoints|] eqn:Hreg.
    + destruct (proxy_fetch_known env session region request user endpoints Hreg)
        as (results & _ & _ & _ & [[_ Hf]|(selected & _ & Hf)]);
        rewrite Hf in He; cbn [result] in He.
      * injection He as <-. auto.
      * right. right.
        destruct (forward_success_or_500 env selected region request) as [[resp Hr]|[cause Hr]];
          rewrite Hr in He; [discriminate|]. injection He as <-. eauto.
    + unfold proxy_fetch in He. rewrite Hreg in He. injection He as <-. auto.
  - intros Hreg. unfold proxy_fetch. now rewrite Hreg.
  - intros endpoints Hreg.
    assert (Hsc : calls (select_endpoint env endpoints region)
                  = calls (gather (status_tasks env endpoints region))).
    { unfold select_endpoint, mbind, io_bind.
      rewrite gather_status_tasks. cbn [lift result calls].
      rewrite healthy_from_spec by (rewrite drop_0, length_imap; lia).
      cbn [result calls]. destruct (healthy_subset _ _); cbn [calls];
        now rewrite !app_nil_r. }
    destruct (proxy_fetch_known env session region request user endpoints Hreg)
      as (results & _ & _ & Hreq & [[_ Hf]|(selected & _ & Hf)]);
      rewrite Hf; cbn [calls].
    + exists []. rewrite app_nil_r. repeat split; [exact Hreq | exact Hsc].
    + exists (calls (forward env selected region request)).
      rewrite requested_app, Hreq, Hsc.
      assert (Hfr : requested (calls (forward env selected region request)) = []).
      { rewrite forward_eq. destruct (upstream_answer _) as [[[r ip] dev]|e'];
          reflexivity. }
      rewrite Hfr, app_nil_r. repeat split; reflexivity.
Qed.

(** X15.  The two routes agree on a region: under the same answers of the
    network, [/status] reports the region unhealthy exactly when [/fetch]
    refuses with 503. *)
Theorem status_unhealthy_iff_fetch_503 (env : Environment) (session : Session)
    (region : string) (request : ProxyRequest) (user : User.t)
    (status : ProxyStatus.t) :
  result (get_proxy_status env region user session) = Return {| statuses := [status] |} ->
  (ProxyStatus.is_healthy status = false
   <-> result (proxy_fetch env session region request user)
       = Raise (HTTPException 503
                  ("No healthy proxy endpoints available in " ++ region))).
Proof.
  unfold get_proxy_status.
  destruct (dict_get REGION_ENDPOINTS region) as [endpoints|] eqn:Hreg; [|discriminate].
  unfold mbind, io_bind.
  destruct (proxy_fetch_known env session region request user endpoints Hreg)
    as (results & Hg & Hlen & _ & Hcases).
  rewrite Hg. cbn [result mret io_ret]. intros [= <-].
  cbn [ProxyStatus.is_healthy].
  pose proof (healthy_subset_length endpoints results (eq_sym Hlen)) as Hcount.
  destruct Hcases as [[Hnone Hf]|(selected & Hin & Hf)]; rewrite Hf; cbn [result].
  - rewrite Hnone in Hcount. cbn [length] in Hcount. rewrite <- Hcount.
    split; reflexivity.
  - assert (Hpos : (0 < length (healthy_subset endpoints results))%nat).
    { destruct (healthy_subset endpoints results); [inversion Hin | cbn; lia]. }
    split.
    + intros H. apply Z.ltb_ge in H. lia.
    + intros H.
      destruct (forward_success_or_500 env selected region request) as [[resp Hr]|[cause Hr]];
        rewrite Hr in H; discriminate.
Qed.

(** X16.  Every healthy endpoint can be the one selected: for each endpoint
    of the healthy subset there is a draw of the random source on which
    [select_endpoint] returns it. *)
Theorem every_healthy_endpoint_selectable (env : Environment) (endpoints : list string)
    (region : string) (results : list Health.t) (e : string) :
  result (gather (status_tasks env endpoints region)) = Return results ->
  e ∈ healthy_subset endpoints results ->
  exists r, result (select_endpoint (with_draw env r) endpoints region) = Return e.
Proof.
  intros Hg He. apply list_elem_of_lookup in He as [i Hi].
  exists i.
  destruct (select_endpoint_result (with_draw env i) endpoints region results Hg)
    as [Hsel _].
  rewrite Hsel. destruct (healthy_subset endpoints results) as [|h t] eqn:Hh;
    [rewrite lookup_nil in Hi; discriminate|].
  unfold random_choice. cbn [random_draw with_draw].
  rewrite Nat.mod_small by (eapply lookup_lt_Some, Hi). now rewrite Hi.
Qed.

End RouteFacts.

(** ** The preview and the registry *)

Lemma length_substring (s : string) (n k : nat) :
  (n + k <= String.length s)%nat -> String.length (substring n k s) = k.
Proof.
  revert n k. induction s as [|c s IH]; intros n k H; cbn [String.length] in H.
  - destruct n, k; cbn in *; try reflexivity; lia.
  - destruct n as [|n].
    + destruct k as [|k]; cbn [substring String.length]; [reflexivity|].
      f_equal. apply IH. cbn. lia.
    + cbn [substring]. apply IH. lia.
Qed.

(** X17.  The preview is never longer than 19 characters: it has twice
    [min 8 len] characters of the key and the three dots.  A key of at most
    8 characters is shown whole, on both sides of the dots. *)
Theorem key_preview_length (tok : string) :
  exists preview,
    key_preview tok = Return preview
    /\ String.length preview = (2 * Nat.min 8 (String.length tok) + 3)%nat
    /\ (String.length preview <= 19)%nat
    /\ ((String.length tok <= 8)%nat -> preview = tok ++ "..." ++ tok).
Proof.
  eexists. split; [apply key_preview_eq|].
  set (n := String.length tok). set (k := Nat.min 8 n).
  assert (Hlen : String.length (substring 0 k tok ++ "..." ++ substring (n - k) k tok)
                 = (2 * k + 3)%nat).
  { rewrite !length_append, !length_substring by (fold n; lia). cbn. lia. }
  split; [exact Hlen|]. split; [lia|].
  intros Hshort. replace k with n by lia. replace (n - n)%nat with 0%nat by lia.
  unfold n. now rewrite substring_whole.
Qed.

Lemma concat_NoDup_shared {A} (d : list (string * list A)) (p q : string * list A) (e : A) :
  NoDup (concat (snd <$> d)) -> p ∈ d -> q ∈ d -> e ∈ snd p -> e ∈ snd q -> p = q.
Proof.
  induction d as [|x d IH]; intros Hnd Hp Hq Hep Heq; [now apply elem_of_nil in Hp|].
  cbn [fmap list_fmap concat] in Hnd. apply list.NoDup_app in Hnd as (_ & Hdisj & Hnd).
  assert (Hin : forall r, r ∈ d -> e ∈ snd r -> e ∈ concat (snd <$> d)).
  { intros r Hr He. apply list_elem_of_In, in_concat. exists (snd r).
    split; apply list_elem_of_In; [|exact He].
    apply list_elem_of_fmap. eauto. }
  apply elem_of_cons in Hp as [->|Hp]; apply elem_of_cons in Hq as [->|Hq].
  - reflexivity.
  - exfalso. eapply Hdisj; [exact Hep|]. eapply Hin; eassumption.
  - exfalso. eapply Hdisj; [exact Heq|]. eapply Hin; eassumption.
  - now apply IH.
Qed.

(** X18.  In the registry every endpoint belongs to exactly one region,
    once: two regions that list a same endpoint are the same region, and no
    region lists an endpoint twice. *)
Theorem registry_endpoints_in_one_region (region1 region2 : string)
    (endpoints1 endpoints2 : list string) (e : string) :
  dict_get REGION_ENDPOINTS region1 = Some endpoints1 ->
  dict_get REGION_ENDPOINTS region2 = Some endpoints2 ->
  e ∈ endpoints1 -> e ∈ endpoints2 ->
  region1 = region2 /\ NoDup endpoints1.
Proof.
  intros H1 H2 He1 He2.
  assert (Hnd : NoDup (concat (snd <$> REGION_ENDPOINTS))).
  { apply (bool_decide_eq_true_1 (NoDup (concat (snd <$> REGION_ENDPOINTS)))).
    vm_compute. reflexivity. }
  apply dict_get_In, list_elem_of_In in H1, H2.
  split.
  - pose proof (concat_NoDup_shared _ _ _ e Hnd H1 H2 He1 He2) as E. now injection E.
  - clear -Hnd H1. induction REGION_ENDPOINTS as [|x d IH]; [now apply elem_of_nil in H1|].
    cbn [fmap list_fmap concat] in Hnd. apply list.NoDup_app in Hnd as (Hx & _ & Hd).
    apply elem_of_cons in H1 as [<-|H1]; [exact Hx | now apply IH].
Qed.

(** ** The migration *)

Module AlembicFacts.
Import Alembic AlembicSpec.

Ltac in_list :=
  repeat first [apply list_elem_of_here | apply list_elem_of_further].

(** A name is none of a table's columns followed by flags of other names. *)
Ltac not_in_names :=
  rewrite ?elem_of_app, ?elem_of_cons, ?elem_of_nil;
  cbn [fmap list_fmap flag_column col_name];
  rewrite ?elem_of_cons, ?elem_of_nil;
  intuition discriminate.

Lemma add_flag_Some (s : schema) (name : string) (t : table) (flag : string) :
  tables s !! name = Some t ->
  flag ∉ column_names t ->
  add_column name (flag_column flag) s
  = Some {| tables :=
              <[name := {| columns := (columns t ++ [flag_column flag])%list;
                           primary_key := primary_key t;
                           rows := (fun r => <[flag := Some "false"]> r) <$> rows t |}]>
                (tables s);
            indexes := indexes s |}.
Proof.
  intros Ht Hflag. unfold add_column. rewrite Ht. cbn [flag_column col_name nullable].
  rewrite bool_decide_false by exact Hflag. reflexivity.
Qed.

Lemma drop_column_Some (s : schema) (name : string) (t : table) (c : string) :
  tables s !! name = Some t ->
  c ∈ column_names t ->
  drop_column name c s
  = Some {| tables :=
              <[name := {| columns := filter (fun x => col_name x ≠ c) (columns t);
                           primary_key := if bool_decide (c ∈ primary_key t)
                                          then [] else primary_key t;
                           rows := delete c <$> rows t |}]> (tables s);
            indexes := filter (fun '(_, ix) => ¬ (ix_table ix = name ∧ c ∈ ix_columns ix))
                              (indexes s) |}.
Proof.
  intros Ht Hc. unfold drop_column. rewrite Ht.
  rewrite bool_decide_true by exact Hc. reflexivity.
Qed.

Lemma relation_free_spec (name : string) (s : schema) :
  relation_free name s = true
  <-> tables s !! name = None /\ indexes s !! name = None.
Proof.
  unfold relation_free. now rewrite andb_true_iff, !bool_decide_eq_true.
Qed.

(** A new table leaves every other name as free as it was. *)
Lemma relation_free_insert_table (name other : string) (t : table) (s : schema) :
  name <> other ->
  relation_free name {| tables := <[other := t]> (tables s); indexes := indexes s |}
  = relation_free name s.
Proof.
  intros Hne. unfold relation_free. cbn [tables indexes].
  now rewrite lookup_insert_ne by congruence.
Qed.

(** [upgrade], step by step. *)
Lemma upgrade_Some (s : schema) (t : table) :
  relation_free "useragent" s = true ->
  relation_free "ix_useragent_user_agent" s = true ->
  tables s !! "user" = Some t ->
  (forall n, n ∈ flag_names -> n ∉ column_names t) ->
  upgrade s = Some (upgraded s t).
Proof.
  intros Hua Hix Hu Hflags.
  assert (H1 : "has_subscription" ∉ column_names t) by (apply Hflags; in_list).
  assert (H2 : "is_trial" ∉ column_names t) by (apply Hflags; in_list).
  assert (H3 : "is_deactivated" ∉ column_names t) by (apply Hflags; in_list).
  unfold upgrade, create_table. rewrite Hua. cbn [negb].
  rewrite bool_decide_true by (repeat constructor; in_list).
  cbn [mbind option_bind]. unfold create_index.
  rewrite relation_free_insert_table, Hix by done. cbn [negb tables indexes].
  rewrite lookup_insert_eq. cbn [rows column_names columns].
  rewrite bool_decide_true by (repeat constructor; in_list).
  rewrite (bool_decide_true (NoDup _)) by constructor.
  cbn [andb orb negb mbind option_bind].
  erewrite add_flag_Some;
    [|cbn [tables]; rewrite lookup_insert_ne by done; exact Hu | exact H1].
  cbn [mbind option_bind tables indexes].
  erewrite add_flag_Some;
    [|cbn [tables]; apply lookup_insert_eq
     |unfold column_names; cbn [columns]; rewrite fmap_app; not_in_names].
  cbn [mbind option_bind tables indexes].
  erewrite add_flag_Some;
    [|cbn [tables]; apply lookup_insert_eq
     |unfold column_names; cbn [columns]; rewrite !fmap_app; not_in_names].
  unfold upgraded, upgraded_user.
  f_equal. f_equal. cbn [tables indexes columns primary_key rows].
  rewrite !insert_insert_eq. f_equal. f_equal.
  - now rewrite <- !app_assoc.
  - rewrite <- !list_fmap_compose. reflexivity.
Qed.

Lemma add_column_inv (s s' : schema) (name : string) (col : column) :
  add_column name col s = Some s' ->
  exists t, tables s !! name = Some t
            /\ (col_name col ∉ column_names t)
            /\ tables s' !! name
               = Some {| columns := (columns t ++ [col])%list;
                         primary_key := primary_key t;
                         rows := ((fun r => <[col_name col := server_default col]> r)
                                  <$> rows t) |}.
Proof.
  unfold add_column. destruct (tables s !! name) as [t|]; [|discriminate].
  destruct (bool_decide (col_name col ∈ column_names t)) eqn:Hc; [discriminate|].
  destruct (_ && _); [discriminate|]. intros [= <-].
  exists t. split; [reflexivity|]. split; [now apply bool_decide_eq_false in Hc|].
  cbn [tables]. apply lookup_insert_eq.
Qed.

Lemma upgrade_inv (s s' : schema) :
  upgrade s = Some s' -> upgradable s.
Proof.
  unfold upgrade. intros H.
  apply bind_Some in H as (s1 & Hc & H).
  apply bind_Some in H as (s2 & Hi & H).
  apply bind_Some in H as (s3 & Ha1 & H).
  apply bind_Some in H as (s4 & Ha2 & Ha3).
  unfold create_table in Hc.
  destruct (relation_free "useragent" s) eqn:Hua; [|discriminate]. cbn [negb] in Hc.
  destruct (bool_decide _); [|discriminate]. injection Hc as <-.
  unfold create_index in Hi. rewrite relation_free_insert_table in Hi by done.
  destruct (relation_free "ix_useragent_user_agent" s) eqn:Hix; [|discriminate].
  cbn [negb tables indexes] in Hi.
  rewrite lookup_insert_eq in Hi. destruct (_ && _); [|discriminate].
  injection Hi as <-.
  apply add_column_inv in Ha1 as (t & Hu & H1 & Ht1). cbn [tables] in Hu.
  rewrite lookup_insert_ne in Hu by done.
  apply add_column_inv in Ha2 as (t2 & Hu2 & H2 & Ht2).
  rewrite Ht1 in Hu2. injection Hu2 as Ht2'. subst t2.
  apply add_column_inv in Ha3 as (t3 & Hu3 & H3 & _).
  rewrite Ht2 in Hu3. injection Hu3 as Ht3'. subst t3.
  split; [exact Hua|]. split; [exact Hix|]. exists t. split; [exact Hu|].
  unfold column_names in *. cbn [columns flag_column col_name] in *.
  rewrite !fmap_app in *. cbn [fmap list_fmap col_name] in *.
  intros n Hn. unfold flag_names in Hn.
  rewrite !elem_of_cons in Hn. rewrite !elem_of_app in *.
  destruct Hn as [->|[->|[->|Hn]]]; [tauto..|]. now apply elem_of_nil in Hn.
Qed.

Lemma filter_other_names (cols : list column) (n : string) :
  n ∉ col_name <$> cols -> filter (fun c => col_name c ≠ n) cols = cols.
Proof.
  induction cols as [|c cols IH]; [reflexivity|]. cbn [fmap list_fmap].
  rewrite not_elem_of_cons. intros [Hc Hcols].
  rewrite filter_cons, decide_True by congruence. f_equal. now apply IH.
Qed.

(** Dropping the last of the columns of a table and its cells. *)
Lemma drop_last_flag (s : schema) (t : table) (cols : list column) (flag : string)
    (rs : list (gmap string (option string))) :
  tables s !! "user" = Some {| columns := (cols ++ [flag_column flag])%list;
                               primary_key := primary_key t;
                               rows := (fun r => <[flag := Some "false"]> r) <$> rs |} ->
  flag ∉ col_name <$> cols ->
  flag ∉ primary_key t ->
  Forall (fun r => r !! flag = None) rs ->
  (forall name ix, indexes s !! name = Some ix ->
     ¬ (ix_table ix = "user" ∧ flag ∈ ix_columns ix)) ->
  drop_column "user" flag s
  = Some {| tables := <["user" := {| columns := cols; primary_key := primary_key t;
                                     rows := rs |}]> (tables s);
            indexes := indexes s |}.
Proof.
  intros Ht Hcols Hpk Hrows Hix.
  erewrite drop_column_Some; [|exact Ht|].
  2:{ unfold column_names. cbn [columns]. rewrite fmap_app, elem_of_app. right.
      cbn. apply list_elem_of_here. }
  cbn [columns primary_key rows]. f_equal. f_equal.
  - f_equal. f_equal.
    + rewrite list.filter_app, filter_other_names by exact Hcols.
      rewrite filter_cons, decide_False by (cbn; intros H; now apply H).
      rewrite filter_nil. apply app_nil_r.
    + now rewrite bool_decide_false by exact Hpk.
    + rewrite <- list_fmap_compose. rewrite <- (list_fmap_id rs) at 2.
      apply Forall_fmap_ext_1. eapply list.Forall_impl; [exact Hrows|].
      intros r Hr. cbn. rewrite delete_insert_eq. now apply delete_id.
  - apply map_filter_id. intros name ix Hlook. exact (Hix _ _ Hlook).
Qed.

(** X19.  The migration goes back: on a schema that keeps the database's
    invariants, [downgrade] after a successful [upgrade] gives the schema
    from before, rows included. *)
Theorem downgrade_upgrade (s s' : schema) :
  schema_ok s ->
  upgrade s = Some s' ->
  downgrade s' = Some s.
Proof.
  intros (Htabs & Hixs) Hup.
  destruct (upgrade_inv _ _ Hup) as (Hua & Hixn & t & Hu & Hflags).
  rewrite (upgrade_Some s t Hua Hixn Hu Hflags) in Hup. injection Hup as <-.
  apply relation_free_spec in Hua as [Hua _].
  apply relation_free_spec in Hixn as [_ Hixn].
  destruct (Htabs _ _ Hu) as (Hrows & Hpk).
  rewrite list.Forall_forall in Hpk.
  assert (Hix : forall name ix, indexes s !! name = Some ix ->
            exists t', tables s !! ix_table ix = Some t'
                       /\ forall c, c ∈ ix_columns ix -> c ∈ column_names t').
  { intros name ix Hlook. specialize (Hixs _ _ Hlook). unfold index_ok in Hixs. cbn in Hixs.
    destruct (tables s !! ix_table ix) as [t'|]; [|contradiction].
    exists t'. split; [reflexivity|]. now apply list.Forall_forall. }
  assert (H1 : "has_subscription" ∉ column_names t) by (apply Hflags; in_list).
  assert (H2 : "is_trial" ∉ column_names t) by (apply Hflags; in_list).
  assert (H3 : "is_deactivated" ∉ column_names t) by (apply Hflags; in_list).
  assert (Hnopk : forall n, n ∉ column_names t -> n ∉ primary_key t)
    by (intros n Hn Hin; apply Hn; now apply Hpk).
  assert (Hcell : forall n, n ∉ column_names t -> Forall (fun r => r !! n = None) (rows t)).
  { intros n Hn. eapply list.Forall_impl; [exact Hrows|]. intros r Hr. cbn in Hr.
    destruct (r !! n) eqn:E; [|reflexivity]. exfalso. apply Hn. exact (Hr _ _ E). }
  assert (Hnoix : forall n, n ∉ column_names t ->
            forall name ix,
              (<["ix_useragent_user_agent" :=
                   {| ix_table := "useragent"; ix_columns := ["user_agent"];
                      ix_unique := true |}]> (indexes s)) !! name = Some ix ->
              ¬ (ix_table ix = "user" ∧ n ∈ ix_columns ix)).
  { intros n Hn name ix Hlook [Htab Hcol].
    apply lookup_insert_Some in Hlook as [[_ <-]|[_ Hlook]]; [discriminate|].
    destruct (Hix _ _ Hlook) as (t' & Ht' & Hsub). rewrite Htab, Hu in Ht'.
    injection Ht' as <-. now apply Hn, Hsub. }
  unfold downgrade, upgraded, upgraded_user.
  erewrite (drop_last_flag _ t
              (columns t ++ [flag_column "has_subscription"; flag_column "is_trial"])
              "is_deactivated"
              ((fun r => <["is_trial" := Some "false"]> (<["has_subscription" := Some "false"]> r))
               <$> rows t)).
  2:{ cbn [tables]. rewrite lookup_insert_eq. f_equal. f_equal.
      - now rewrite <- app_assoc.
      - now rewrite <- list_fmap_compose. }
  2:{ rewrite fmap_app. not_in_names. }
  2:{ now apply Hnopk. }
  2:{ apply Forall_fmap. eapply list.Forall_impl; [exact (Hcell _ H3)|]. intros r Hr. cbn.
      now rewrite !lookup_insert_ne by done. }
  2:{ cbn [indexes]. exact (Hnoix _ H3). }
  cbn [mbind option_bind tables indexes]. rewrite insert_insert_eq.
  erewrite (drop_last_flag _ t (columns t ++ [flag_column "has_subscription"]) "is_trial"
              ((fun r => <["has_subscription" := Some "false"]> r) <$> rows t)).
  2:{ cbn [tables]. rewrite lookup_insert_eq. f_equal. f_equal.
      - now rewrite <- app_assoc.
      - now rewrite <- list_fmap_compose. }
  2:{ rewrite fmap_app. not_in_names. }
  2:{ now apply Hnopk. }
  2:{ apply Forall_fmap. eapply list.Forall_impl; [exact (Hcell _ H2)|]. intros r Hr. cbn.
      now rewrite !lookup_insert_ne by done. }
  2:{ cbn [indexes]. exact (Hnoix _ H2). }
  cbn [mbind option_bind tables indexes]. rewrite insert_insert_eq.
  erewrite (drop_last_flag _ t (columns t) "has_subscription" (rows t)).
  2:{ cbn [tables]. now rewrite lookup_insert_eq. }
  2:{ exact H1. }
  2:{ now apply Hnopk. }
  2:{ exact (Hcell _ H1). }
  2:{ cbn [indexes]. exact (Hnoix _ H1). }
  cbn [mbind option_bind tables indexes]. rewrite insert_insert_eq.
  unfold drop_index. cbn [indexes tables]. rewrite lookup_insert_eq.
  cbn [mbind option_bind]. unfold drop_table. cbn [indexes tables].
  rewrite lookup_insert_ne, lookup_insert_eq by done.
  rewrite delete_insert_eq, (delete_id (indexes s)) by exact Hixn.
  rewrite delete_insert_ne, delete_insert_eq, (delete_id (tables s)) by done.
  rewrite insert_id by (rewrite Hu; now destruct t).
  rewrite map_filter_id.
  - now destruct s.
  - intros name ix Hlook Htab. destruct (Hix _ _ Hlook) as (t' & Ht' & _).
    rewrite Htab, Hua in Ht'. discriminate.
Qed.

(** X20.  [upgrade] goes through exactly on a schema that has the table
    [user] without any of the three flag columns and in which the names
    [useragent] and [ix_useragent_user_agent] are free, that is, neither a
    table nor an index has either name; so it cannot be applied twice. *)
Theorem upgrade_applies_once (s : schema) :
  (is_Some (upgrade s) <-> upgradable s)
  /\ (forall s', upgrade s = Some s' -> upgrade s' = None).
Proof.
  split; [split|].
  - intros [s' H]. eapply upgrade_inv, H.
  - intros (Hua & Hix & t & Hu & Hflags). rewrite (upgrade_Some s t) by assumption. eauto.
  - intros s' Hup.
    destruct (upgrade_inv _ _ Hup) as (Hua & Hix & t & Hu & Hflags).
    rewrite (upgrade_Some s t Hua Hix Hu Hflags) in Hup. injection Hup as <-.
    unfold upgrade, create_table, relation_free, upgraded. cbn [tables].
    rewrite lookup_insert_ne, lookup_insert_eq by done.
    now rewrite bool_decide_false by done.
Qed.

(** X21.  What [upgrade] changes and what it leaves: the [user] table
    keeps its columns and gains the three flags after them, NOT NULL with
    default false; every row of [user] keeps its cells and reads false under
    each flag; [useragent] is new and empty; every other table and every
    other index is as before. *)
Theorem upgrade_effect (s s' : schema) :
  upgrade s = Some s' ->
  exists t t',
    tables s !! "user" = Some t /\ tables s' !! "user" = Some t'
    /\ columns t' = (columns t ++ (flag_column <$> flag_names))%list
    /\ primary_key t' = primary_key t
    /\ Forall2 (fun r r' =>
                  (forall n, n ∈ flag_names -> r' !! n = Some (Some "false"))
                  /\ (forall c, c ∉ flag_names -> r' !! c = r !! c))
               (rows t) (rows t')
    /\ tables s' !! "useragent"
       = Some {| columns := useragent_columns; primary_key := ["id"]; rows := [] |}
    /\ (forall name, name <> "user" -> name <> "useragent" ->
          tables s' !! name = tables s !! name)
    /\ (forall name, name <> "ix_useragent_user_agent" ->
          indexes s' !! name = indexes s !! name).
Proof.
  intros Hup.
  destruct (upgrade_inv _ _ Hup) as (Hua & Hix & t & Hu & Hflags).
  rewrite (upgrade_Some s t Hua Hix Hu Hflags) in Hup. injection Hup as <-.
  exists t, (upgraded_user t). unfold upgraded. cbn [tables indexes].
  split; [exact Hu|]. split; [apply lookup_insert_eq|].
  split; [reflexivity|]. split; [reflexivity|]. split; [|split; [|split]].
  - unfold upgraded_user. cbn [rows]. apply Forall2_fmap_r, Forall_Forall2_diag.
    apply list.Forall_forall. intros r _. split.
    + intros n Hn. unfold flag_names in Hn. rewrite !elem_of_cons, elem_of_nil in Hn.
      destruct Hn as [->|[->|[->|[]]]]; by simplify_map_eq.
    + intros c Hc. unfold flag_names in Hc.
      rewrite !not_elem_of_cons in Hc. destruct Hc as (? & ? & ? & _).
      now rewrite !lookup_insert_ne by congruence.
  - now rewrite lookup_insert_ne, lookup_insert_eq by done.
  - intros name H1 H2. now rewrite !lookup_insert_ne by congruence.
  - intros name H1. now rewrite lookup_insert_ne by congruence.
Qed.

End AlembicFacts.

(** ** The properties at sample data *)

(** The floats of the sample runs are doubles. *)
Section Samples.
#[local] Existing Instance Binary64.double.

Lemma append_inv_head (a x y : string) : a ++ x = a ++ y -> x = y.
Proof.
  induction a as [|c a IH]; [trivial|].
  change (String c a ++ ?z) with (String c (a ++ z)). intros [= H]. now apply IH.
Qed.

Lemma reference_mac_separates_samples :
  mac_separates Reference.lib "changethis" "another-secret".
Proof.
  intros a m H. cbn [jws_sign Reference.lib] in H. unfold Reference.mac in H.
  apply append_inv_head in H. cbv [String.append] in H. discriminate H.
Qed.

Lemma key_of_another_secret_rejected_witness :
  verify_api_key (lib := Reference.lib)
    {| SECRET_KEY := "another-secret"; database := sample_session |} 1742400060
    (generate_api_key (lib := Reference.lib) sample_world 1742400000 1742400000
       "7f3c2a10-0000-4000-8000-000000000001")
  = Raise (PyJWTError InvalidSignatureError).
Proof.
  apply (key_of_another_secret_rejected Reference.lib sample_world
           {| SECRET_KEY := "another-secret"; database := sample_session |}).
  - apply reference_round_trip.
  - apply reference_mac_separates_samples.
Defined.

Lemma other_algorithm_rejected_witness :
  verify_api_key (lib := Reference.lib) sample_world 1742400060
    (jwt_encode (lib := Reference.lib)
       (issued_claims 1742400000 1742400000 "7f3c2a10-0000-4000-8000-000000000001")
       (SECRET_KEY sample_world) "none")
  = Raise (PyJWTError InvalidAlgorithmError).
Proof.
  apply (other_algorithm_rejected Reference.lib sample_world 1742400060).
  - apply reference_round_trip.
  - discriminate.
Defined.

Lemma verify_api_key_window_witness :
  verify_api_key (lib := Reference.lib) sample_world 1742400060
    (generate_api_key (lib := Reference.lib) sample_world 1742400000.5 1742400000.5
       "7f3c2a10-0000-4000-8000-000000000001")
  = Return (Some (issued_claims 1742400000.5 1742400000.5
                    "7f3c2a10-0000-4000-8000-000000000001")).
Proof.
  apply (verify_api_key_window Reference.lib sample_world 1742400000.5 1742400000.5
           1742400060 "7f3c2a10-0000-4000-8000-000000000001").
  - apply reference_round_trip.
  - unfold Qle. cbn. lia.
  - unfold Qle. cbn. lia.
  - split; [|split]; [unfold Qle; vm_compute; discriminate
                     | unfold Qlt; vm_compute; reflexivity | reflexivity].
Defined.

Lemma access_token_is_no_api_key_witness :
  exists detail,
    verify_api_token (lib := Reference.lib) sample_world 1742400060 sample_session
      (Some (create_access_token (lib := Reference.lib) sample_world 1742400000
               "7f3c2a10-0000-4000-8000-000000000001" 691200))
    = Raise (HTTPException 401 detail).
Proof.
  apply (access_token_is_no_api_key Reference.lib sample_world 1742400000 691200
           1742400060 "7f3c2a10-0000-4000-8000-000000000001" sample_session).
  - apply reference_round_trip.
  - unfold Qlt. vm_compute. reflexivity.
Defined.

Lemma key_names_its_user_witness :
  User.id sample_user = "7f3c2a10-0000-4000-8000-000000000001".
Proof.
  apply (key_names_its_user Reference.lib sample_world 1742400000 1742400000 1742400060
           "7f3c2a10-0000-4000-8000-000000000001" sample_session sample_user).
  - apply reference_round_trip.
  - vm_compute. reflexivity.
Defined.

Lemma issued_key_passes_gate_witness :
  verify_api_token (lib := Reference.lib) sample_world 1742400060
    (database sample_world_revoked)
    (Some (generate_api_key (lib := Reference.lib) sample_world 1742400000 1742400000
             "7f3c2a10-0000-4000-8000-000000000001"))
  = Return sample_user.
Proof.
  eapply (issued_key_passes_gate Reference.lib sample_world sample_clock sample_session
            _ (database sample_world_revoked) sample_user).
  - apply reference_round_trip.
  - reflexivity.
  - vm_compute. discriminate.
  - reflexivity.
  - reflexivity.
  - unfold Qle. cbn. lia.
  - unfold Qle. cbn. lia.
  - unfold Qle. vm_compute. discriminate.
  - unfold Qlt. vm_compute. reflexivity.
  - reflexivity.
Defined.

Lemma issued_key_is_listed_witness :
  exists session' entry,
    list_user_api_keys session' sample_user
    = Return ([ {| APIKeyResponse.key_preview := "eyJhbGci...bmF0dXJl";
                   APIKeyResponse.created_at := "2025-03-19T16:11:30.715497";
                   APIKeyResponse.expires_at := "2026-03-19T16:11:30";
                   APIKeyResponse.is_active := true |} ] ++ [entry])%list
    /\ key_preview (generate_api_key (lib := Reference.lib) sample_world
                      1742400000 1742400000 "7f3c2a10-0000-4000-8000-000000000001")
       = Return (APIKeyResponse.key_preview entry)
    /\ APIKeyResponse.created_at entry = isoformat sample_datetime
    /\ APIKeyResponse.is_active entry = true.
Proof.
  eexists.
  eapply (issued_key_is_listed Reference.lib sample_world sample_clock
            (database sample_world) _ sample_user).
  - reflexivity.
  - reflexivity.
Defined.

Lemma issuing_leaves_other_listings_witness :
  exists session',
    generate_user_api_key (lib := Reference.lib) sample_world sample_clock
      (database sample_world) sample_user
    = Issued (generate_api_key (lib := Reference.lib) sample_world
                1742400000 1742400000 "7f3c2a10-0000-4000-8000-000000000001") session'
    /\ list_user_api_keys session' sample_other_user
       = list_user_api_keys (database sample_world) sample_other_user.
Proof.
  eexists. split; [reflexivity|].
  eapply (issuing_leaves_other_listings Reference.lib sample_world sample_clock
            (database sample_world) _ sample_user sample_other_user).
  - reflexivity.
  - discriminate.
Defined.

Lemma status_unhealthy_iff_fetch_503_witness :
  result (proxy_fetch sample_env_down sample_session "asia"
            {| url := "https://example.org/" |} sample_user)
  = Raise (HTTPException 503 "No healthy proxy endpoints available in asia").
Proof.
  eapply (status_unhealthy_iff_fetch_503 sample_env_down sample_session "asia"
            {| url := "https://example.org/" |} sample_user).
  - reflexivity.
  - reflexivity.
Defined.

Lemma every_healthy_endpoint_selectable_witness :
  exists r,
    result (select_endpoint (with_draw sample_env_up r)
              ["https://asia-east1-proxy6-455014.cloudfunctions.net/main";
               "https://asia-northeast2-proxy6-455014.cloudfunctions.net/main"] "asia")
    = Return "https://asia-northeast2-proxy6-455014.cloudfunctions.net/main".
Proof.
  eapply (every_healthy_endpoint_selectable sample_env_up).
  - reflexivity.
  - apply list_elem_of_further, list_elem_of_here.
Defined.

Lemma registry_endpoints_in_one_region_witness :
  "asia" = "asia"
  /\ NoDup ["https://asia-east1-proxy6-455014.cloudfunctions.net/main";
            "https://asia-northeast2-proxy6-455014.cloudfunctions.net/main"].
Proof.
  apply (registry_endpoints_in_one_region "asia" "asia"
           ["https://asia-east1-proxy6-455014.cloudfunctions.net/main";
            "https://asia-northeast2-proxy6-455014.cloudfunctions.net/main"]
           ["https://asia-east1-proxy6-455014.cloudfunctions.net/main";
            "https://asia-northeast2-proxy6-455014.cloudfunctions.net/main"]
           "https://asia-east1-proxy6-455014.cloudfunctions.net/main").
  - reflexivity.
  - reflexivity.
  - apply list_elem_of_here.
  - apply list_elem_of_here.
Defined.

Lemma downgrade_upgrade_witness :
  exists s', Alembic.upgrade sample_schema = Some s'
             /\ Alembic.downgrade s' = Some sample_schema.
Proof.
  destruct (Alembic.upgrade sample_schema) as [s'|] eqn:Hup; [|vm_compute in Hup; discriminate].
  exists s'. split; [reflexivity|].
  apply (AlembicFacts.downgrade_upgrade sample_schema s'); [|exact Hup].
  apply (bool_decide_eq_true_1 (AlembicSpec.schema_ok sample_schema)).
  vm_compute. reflexivity.
Defined.

Lemma upgrade_effect_witness :
  exists s' t t',
    Alembic.upgrade sample_schema = Some s'
    /\ Alembic.tables sample_schema !! "user" = Some t
    /\ Alembic.tables s' !! "user" = Some t'
    /\ Alembic.columns t'
       = (Alembic.columns t ++ (Alembic.flag_column <$> AlembicSpec.flag_names))%list.
Proof.
  destruct (Alembic.upgrade sample_schema) as [s'|] eqn:Hup; [|vm_compute in Hup; discriminate].
  destruct (AlembicFacts.upgrade_effect sample_schema s' Hup)
    as (t & t' & Ht & Ht' & Hcols & _).
  exists s', t, t'. repeat split; assumption.
Defined.

(** The names that [upgrade] creates must be free among tables and indexes
    alike: with an index named [useragent] the migration is refused. *)
Example upgrade_refuses_taken_name :
  Alembic.upgrade
    {| Alembic.tables := Alembic.tables sample_schema;
       Alembic.indexes :=
         <["useragent" := {| Alembic.ix_table := "user";
                             Alembic.ix_columns := ["email"];
                             Alembic.ix_unique := false |}]>
           (Alembic.indexes sample_schema) |}
  = None.
Proof. vm_compute. reflexivity. Qed.

End Samples.
